(** * Elm.Kernel.Browser: a shallow embedding of [src/Elm/Kernel/Browser.js]

    The kernel module adapts the callback-driven host (animation frames,
    DOM events, navigation) to the runtime's task model.  Every JavaScript
    function that the properties below talk about is transcribed as a Rocq
    function over an explicit host state; the host calls the code makes are
    also recorded in a trace, so that "what was called, with which
    arguments, in which order" is a statement about a list. *)

From stdpp Require Import base option list strings gmap.
From Stdlib Require Import ZArith Lia.

Set Default Proof Using "Type".

(** ** The render coalescer: [_Browser_makeAnimator] *)

Module Animator.

(** The three request constants [__4_NO_REQUEST], [__4_PENDING_REQUEST] and
    [__4_EXTRA_REQUEST].  The compiler replaces them by three distinct
    integers; the code only ever compares them with [===]. *)
Inductive AnimatorState : Set :=
| NO_REQUEST
| PENDING_REQUEST
| EXTRA_REQUEST.

#[export] Instance AnimatorState_eq_dec : EqDecision AnimatorState.
Proof. solve_decision. Defined.

Section WithModel.
Context {Model : Type}.

(** What the animator does to the outside world, in program order:
    a call of [_Browser_requestAnimationFrame(updateIfNeeded)], a call of
    [draw(m)], and the host firing a queued frame callback. *)
Inductive HostCall : Type :=
| RequestFrame
| Draw (m : Model)
| Fire.

(** The closure variables [model] and [state] of one animator, the number
    of [updateIfNeeded] callbacks the host still holds, and the trace. *)
Record Animator : Type := mkAnimator {
  model : Model;
  state : AnimatorState;
  queued : nat;
  trace : list HostCall
}.

Definition set_model (m : Model) (a : Animator) : Animator :=
  mkAnimator m (state a) (queued a) (trace a).

Definition set_state (s : AnimatorState) (a : Animator) : Animator :=
  mkAnimator (model a) s (queued a) (trace a).

(** [_Browser_requestAnimationFrame(updateIfNeeded)]: with the host's
    [requestAnimationFrame] or with the [setTimeout] fallback, the
    callback is queued and will be called once. *)
Definition _Browser_requestAnimationFrame (a : Animator) : Animator :=
  mkAnimator (model a) (state a) (S (queued a)) (trace a ++ [RequestFrame]).

(** [draw(model)]: the draw callback receives the stored model. *)
Definition draw (a : Animator) : Animator :=
  mkAnimator (model a) (state a) (queued a) (trace a ++ [Draw (model a)]).

(** [_Browser_makeAnimator(model, draw)] up to the [return]: one
    unconditional draw, then [state = __4_NO_REQUEST]. *)
Definition _Browser_makeAnimator (m : Model) : Animator :=
  set_state NO_REQUEST (draw (mkAnimator m NO_REQUEST 0 [])).

(** [function updateIfNeeded()]:
    [state = state === EXTRA ? NO : (rAF(updateIfNeeded), draw(model), EXTRA)]. *)
Definition updateIfNeeded (a : Animator) : Animator :=
  if decide (state a = EXTRA_REQUEST)
  then set_state NO_REQUEST a
  else set_state EXTRA_REQUEST (draw (_Browser_requestAnimationFrame a)).

(** The function [_Browser_makeAnimator] returns,
    [function(nextModel, isSync)]. *)
Definition notify (nextModel : Model) (isSync : bool) (a : Animator) : Animator :=
  let a := set_model nextModel a in
  if isSync
  then
    let a := draw a in
    if decide (state a = PENDING_REQUEST) then set_state EXTRA_REQUEST a else a
  else
    let a := if decide (state a = NO_REQUEST)
             then _Browser_requestAnimationFrame a else a in
    set_state PENDING_REQUEST a.

(** The host takes one queued callback off its list and calls it.  It
    cannot call a callback it was never given. *)
Definition fire (a : Animator) : option Animator :=
  match queued a with
  | 0 => None
  | S n => Some (updateIfNeeded
                   (mkAnimator (model a) (state a) n (trace a ++ [Fire])))
  end.

(** What can happen to an animator after its construction. *)
Inductive Event : Type :=
| Notify (nextModel : Model) (isSync : bool)
| Frame.

Definition step (a : Animator) (e : Event) : option Animator :=
  match e with
  | Notify m isSync => Some (notify m isSync a)
  | Frame => fire a
  end.

Fixpoint run (es : list Event) (a : Animator) : option Animator :=
  match es with
  | [] => Some a
  | e :: es' => match step a e with
                | Some a' => run es' a'
                | None => None
                end
  end.

(** Frame requests made, and frame callbacks fired, in a trace. *)
Definition is_request (c : HostCall) : bool :=
  match c with RequestFrame => true | _ => false end.

Definition is_fire (c : HostCall) : bool :=
  match c with Fire => true | _ => false end.

Definition requested (t : list HostCall) : nat := length (filter is_request t).
Definition fired (t : list HostCall) : nat := length (filter is_fire t).

(** Requests made but not yet fired, at the end of trace [t]. *)
Definition outstanding (t : list HostCall) : nat := requested t - fired t.

(** A trace is balanced when at each of its points the host holds no more
    than one callback and has fired none that was not requested. *)
Definition balanced (t : list HostCall) : Prop :=
  ∀ p, p `prefix_of` t → fired p ≤ requested p ∧ requested p ≤ fired p + 1.

(** What holds of an animator between any two events. *)
Record coalesced (a : Animator) : Prop := mkCoalesced {
  co_balanced : balanced (trace a);
  co_queued : requested (trace a) = fired (trace a) + queued a;
  co_idle : state a = NO_REQUEST → queued a = 0;
  co_busy : state a ≠ NO_REQUEST → queued a = 1
}.

(** The calls that [a'] made beyond those of [a]. *)
Definition calls_since (a a' : Animator) (cs : list HostCall) : Prop :=
  trace a' = trace a ++ cs.

End WithModel.

Arguments HostCall : clear implicits.
Arguments Animator : clear implicits.
Arguments Event : clear implicits.

End Animator.

(** ** Shared vocabulary: exceptions and scheduler values *)

Module Js.

(** How a JavaScript statement ends: normally with a value, or by throwing.
    The state reached is kept in both cases. *)
Inductive Completion (A S : Type) : Type :=
| Normal (a : A) (s : S)
| Throw (err : string) (s : S).

Arguments Normal {A S} a s.
Arguments Throw {A S} err s.

Definition state_of {A S} (c : Completion A S) : S :=
  match c with Normal _ s => s | Throw _ s => s end.

(** [try { body } catch (err) { handler }] *)
Definition try_catch {A S} (body : S → Completion A S)
    (handler : string → S → Completion A S) (s : S) : Completion A S :=
  match body s with
  | Normal a s' => Normal a s'
  | Throw err s' => handler err s'
  end.

End Js.

Module Scheduler.

(** The two values this module hands to a completion callback:
    [__Scheduler_succeed(v)] and [__Scheduler_fail(e)]. *)
Inductive Task (E A : Type) : Type :=
| succeed (a : A)
| fail (e : E).

Arguments succeed {E A} a.
Arguments fail {E A} e.

End Scheduler.

(** ** Real navigation: [_Browser_reload] and [_Browser_load] *)

Module Navigation.
Import Js.

(** Calls on the host's location object, in program order. *)
Inductive HostCall : Set :=
| LocationAssign (url : string)        (* window.location = url *)
| LocationReload (skipCache : bool).   (* __VirtualDom_doc.location.reload(skipCache) *)

Section WithHost.
(** [R] is whatever a completion callback would be given. *)
Context {R : Type}.

(** Which URLs make the host throw on [window.location = url] is the
    host's business (the comment in the source names Firefox and
    NS_ERROR_MALFORMED_URI). *)
Variable malformed : string → bool.

Record Host : Type := mkHost {
  calls : list HostCall;
  resolved : list R      (* values passed to the completion callback *)
}.

Definition Callback : Type := R → Host → Host.

(** The callback the scheduler passes to a binding: it records the value
    the task resolved with. *)
Definition resume : Callback :=
  fun r h => mkHost (calls h) (resolved h ++ [r]).

Definition location_assign (url : string) (h : Host) : Completion () Host :=
  let h' := mkHost (calls h ++ [LocationAssign url]) (resolved h) in
  if malformed url then Throw "NS_ERROR_MALFORMED_URI" h' else Normal () h'.

Definition location_reload (skipCache : bool) (h : Host) : Completion () Host :=
  Normal () (mkHost (calls h ++ [LocationReload skipCache]) (resolved h)).

(** The function given to [__Scheduler_binding] in [_Browser_reload]. *)
Definition _Browser_reload (skipCache : bool) (callback : Callback)
    (h : Host) : Completion () Host :=
  location_reload skipCache h.

(** The function given to [__Scheduler_binding] in [_Browser_load]. *)
Definition _Browser_load (url : string) (callback : Callback)
    (h : Host) : Completion () Host :=
  try_catch
    (location_assign url)
    (fun err => location_reload false)
    h.

End WithHost.

Arguments Host : clear implicits.
Arguments Callback : clear implicits.

End Navigation.

(** ** DOM queries: [_Browser_withNode] and the scroll setters *)

Module Dom.
Import Scheduler.

(** [__Dom_NotFound(id)] *)
Inductive Error : Set :=
| NotFound (id : string).

Section WithHost.
(** JavaScript numbers with their subtraction, and host nodes with
    property read [node[p]] and property write [node[p] = v].  How a node
    reacts to a write (clamping, read-only properties) is left to the
    host. *)
Context {Num Node : Type}.
Variable sub : Num → Num → Num.
Variable get_prop : string → Node → Num.
Variable set_prop : string → Num → Node → Node.

Section WithResult.
(** [A] is the type of value the task succeeds with. *)
Context {A : Type}.

(** The page: the nodes [document.getElementById] can find, the
    identifiers it was asked for, and the values given to the
    completion callback. *)
Record Page : Type := mkPage {
  document : gmap string Node;
  lookups : list string;
  resolved : list (Task Error A)
}.

(** The host: a page and the frame callbacks waiting for the next
    animation frame, oldest first. *)
Record Host : Type := mkHost {
  page : Page;
  frames : list (Page → Page)
}.

Definition Callback : Type := Task Error A → Page → Page.

Definition resume : Callback :=
  fun t p => mkPage (document p) (lookups p) (resolved p ++ [t]).

(** [_Browser_requestAnimationFrame(callback)] *)
Definition _Browser_requestAnimationFrame (cb : Page → Page) (h : Host) : Host :=
  mkHost (page h) (frames h ++ [cb]).

(** [document.getElementById(id)] *)
Definition getElementById (id : string) (p : Page) : option Node * Page :=
  (document p !! id, mkPage (document p) (lookups p ++ [id]) (resolved p)).

(** A node handed to [doStuff] is the host's own object: what
    [doStuff] does to it is seen by the page. *)
Definition store_node (id : string) (node : Node) (p : Page) : Page :=
  mkPage (<[id := node]> (document p)) (lookups p) (resolved p).

(** The function given to [__Scheduler_binding] in [_Browser_withNode]. *)
Definition _Browser_withNode (id : string) (doStuff : Node → Node * A)
    (callback : Callback) (h : Host) : Host :=
  _Browser_requestAnimationFrame
    (fun p =>
       let '(node, p) := getElementById id p in
       match node with
       | Some node =>
           let '(node, a) := doStuff node in
           callback (succeed a) (store_node id node p)
       | None => callback (fail (NotFound id)) p
       end)
    h.

(** The next animation frame: the host calls the oldest callback. *)
Definition tick (h : Host) : option Host :=
  match frames h with
  | [] => None
  | cb :: rest => Some (mkHost (cb (page h)) rest)
  end.

(** All waiting callbacks are called, oldest first. *)
Definition flush (h : Host) : Page :=
  fold_left (fun p cb => cb p) (frames h) (page h).

(** A task run to its end on page [p], with nothing else waiting. *)
Definition exec (binding : Callback → Host → Host) (p : Page) : Page :=
  flush (binding resume (mkHost p [])).

End WithResult.

Arguments Page : clear implicits.
Arguments Host : clear implicits.
Arguments Callback : clear implicits.

(** [_Browser_getScroll(id)] *)
Definition _Browser_getScroll (id : string)
    : Callback (Num * Num) → Host (Num * Num) → Host (Num * Num) :=
  _Browser_withNode id (fun node =>
    (node, (get_prop "scrollLeft" node, get_prop "scrollTop" node))).

(** [_Browser_setPositiveScroll(scroll, id, offset)] *)
Definition _Browser_setPositiveScroll (scroll id : string) (offset : Num)
    : Callback () → Host () → Host () :=
  _Browser_withNode id (fun node =>
    (set_prop scroll offset node, ())).

(** [_Browser_setNegativeScroll(scroll, scrollMax, id, offset)] *)
Definition _Browser_setNegativeScroll (scroll scrollMax id : string) (offset : Num)
    : Callback () → Host () → Host () :=
  _Browser_withNode id (fun node =>
    (set_prop scroll (sub (get_prop scrollMax node) offset) node, ())).

(** The scroll position of the node called [id], if there is one. *)
Definition scroll_position {A} (scroll id : string) (p : Page A) : option Num :=
  get_prop scroll <$> document p !! id.

End WithHost.

Arguments Page : clear implicits.
Arguments Host : clear implicits.
Arguments Callback : clear implicits.

End Dom.


(** ** Global events: [_Browser_fakeNode], [_Browser_on], [_Browser_decodeEvent] *)

Module Events.
Import Js.

(** The values that reach the third parameter of [addEventListener] and
    [removeEventListener] here: a missing argument, a boolean, and the
    object literal [{ passive: passive }]. *)
Inductive JsValue : Set :=
| JsUndefined
| JsBool (b : bool)
| JsPassive (passive : bool).

#[export] Instance JsValue_eq_dec : EqDecision JsValue.
Proof. solve_decision. Defined.

(** What [node] can be in [node.addEventListener(...)]: an event target of
    the host, the object [_Browser_fakeNode], or no object at all. *)
Inductive JsNode : Set :=
| HostTarget (ref : nat)
| FakeNode
| NoObject.

#[export] Instance JsNode_eq_dec : EqDecision JsNode.
Proof. solve_decision. Defined.

(** [var _Browser_fakeNode = { addEventListener: function() {},
    removeEventListener: function() {} }] *)
Definition _Browser_fakeNode : JsNode := FakeNode.

(** The globals [document] and [window]; [None] when [typeof] gives
    ['undefined']. *)
Record Globals : Set := mkGlobals {
  g_document : option nat;
  g_window : option nat
}.

(** [typeof document !== 'undefined' ? document : _Browser_fakeNode] *)
Definition _Browser_doc (g : Globals) : JsNode :=
  match g_document g with
  | Some d => HostTarget d
  | None => _Browser_fakeNode
  end.

(** [typeof window !== 'undefined' ? window : _Browser_fakeNode] *)
Definition _Browser_window (g : Globals) : JsNode :=
  match g_window g with
  | Some w => HostTarget w
  | None => _Browser_fakeNode
  end.

(** Method calls made on a node, in program order; a function object is
    named by its identity. *)
Inductive HostCall : Set :=
| AddEventListener (node : JsNode) (type : string) (fn : nat) (options : JsValue)
| RemoveEventListener (node : JsNode) (type : string) (fn : nat) (options : JsValue).

(** The four things a call passes. *)
Definition call_args (c : HostCall) : JsNode * string * nat * JsValue :=
  match c with
  | AddEventListener node type fn options => (node, type, fn, options)
  | RemoveEventListener node type fn options => (node, type, fn, options)
  end.

Section WithEvents.
(** Host events, and the tasks [sendToSelf] makes of them. *)
Context {Event Task : Type}.

(** [__VirtualDom_passiveSupported], found out by the renderer at load time. *)
Variable passiveSupported : bool.

(** [__Scheduler_rawSpawn(task)]: the task is handed to the scheduler. *)
Definition rawSpawn (t : Task) (spawned : list Task) : list Task :=
  spawned ++ [t].

(** A function object: its identity and what a call of it does. *)
Record Handler : Type := mkHandler {
  fn_id : nat;
  fn_call : Event → list Task → list Task
}.

(** An entry of a host target's event listener list. *)
Record Listener : Type := mkListener {
  l_target : nat;
  l_type : string;
  l_callback : Handler;
  l_capture : bool;
  l_passive : option bool
}.

Record World : Type := mkWorld {
  listeners : list Listener;   (* registered with the host *)
  spawned : list Task;         (* handed to the scheduler *)
  calls : list HostCall;
  next_fn : nat                (* identity of the next function object *)
}.

Definition init : World := mkWorld [] [] [] 0.

Definition log (c : HostCall) (w : World) : World :=
  mkWorld (listeners w) (spawned w) (calls w ++ [c]) (next_fn w).

Definition set_listeners (ls : list Listener) (w : World) : World :=
  mkWorld ls (spawned w) (calls w) (next_fn w).

(** The host's reading of the third argument (the DOM standard's
    "flatten"): a boolean is the capture flag, an object gives the fields
    it has; capture is false when not given, passive is then left to the
    host's default. *)
Definition capture_of (options : JsValue) : bool :=
  match options with JsBool b => b | _ => false end.

Definition passive_of (options : JsValue) : option bool :=
  match options with JsPassive p => Some p | _ => None end.

(** The host identifies a listener by target, type, callback and capture. *)
Definition same_listener (ref : nat) (type : string) (fn : nat) (capture : bool)
    (l : Listener) : bool :=
  bool_decide (l_target l = ref ∧ l_type l = type
               ∧ fn_id (l_callback l) = fn ∧ l_capture l = capture).

Definition host_add (ref : nat) (type : string) (h : Handler) (options : JsValue)
    (ls : list Listener) : list Listener :=
  if existsb (same_listener ref type (fn_id h) (capture_of options)) ls
  then ls
  else ls ++ [mkListener ref type h (capture_of options) (passive_of options)].

Definition host_remove (ref : nat) (type : string) (h : Handler) (options : JsValue)
    (ls : list Listener) : list Listener :=
  filter (λ l, negb (same_listener ref type (fn_id h) (capture_of options) l)) ls.

(** [node.addEventListener(type, handler, options)] *)
Definition addEventListener (node : JsNode) (type : string) (h : Handler)
    (options : JsValue) (w : World) : Completion () World :=
  match node with
  | NoObject => Throw "TypeError" w
  | FakeNode => Normal () (log (AddEventListener node type (fn_id h) options) w)
  | HostTarget ref =>
      Normal () (log (AddEventListener node type (fn_id h) options)
                   (set_listeners (host_add ref type h options (listeners w)) w))
  end.

(** [node.removeEventListener(type, handler, options)] *)
Definition removeEventListener (node : JsNode) (type : string) (h : Handler)
    (options : JsValue) (w : World) : Completion () World :=
  match node with
  | NoObject => Throw "TypeError" w
  | FakeNode => Normal () (log (RemoveEventListener node type (fn_id h) options) w)
  | HostTarget ref =>
      Normal () (log (RemoveEventListener node type (fn_id h) options)
                   (set_listeners (host_remove ref type h options (listeners w)) w))
  end.

(** [function handler(event) { __Scheduler_rawSpawn(sendToSelf(event)); }]:
    each evaluation of the declaration makes a new function object. *)
Definition new_handler (sendToSelf : Event → Task) (w : World) : Handler * World :=
  (mkHandler (next_fn w) (fun event => rawSpawn (sendToSelf event)),
   mkWorld (listeners w) (spawned w) (calls w) (S (next_fn w))).

(** The teardown a binding returns. *)
Definition Kill : Type := World → Completion () World.

(** [__VirtualDom_passiveSupported && { passive: passive }]: the left
    operand when it is false, the object otherwise. *)
Definition passive_option (passive : bool) : JsValue :=
  if passiveSupported then JsPassive passive else JsBool false.

(** The function given to [__Scheduler_binding] in [_Browser_on]: it adds
    the listener and returns the function that removes it.  Its [callback]
    parameter is never used and is left out. *)
Definition _Browser_on (node : JsNode) (passive : bool) (eventName : string)
    (sendToSelf : Event → Task) (w : World) : Completion Kill World :=
  let '(handler, w) := new_handler sendToSelf w in
  match addEventListener node eventName handler (passive_option passive) w with
  | Throw err w => Throw err w
  | Normal _ w =>
      Normal (fun w => removeEventListener node eventName handler JsUndefined w) w
  end.

(** The host delivers [event] of type [type] to the listeners of target
    [ref], in the order they were added. *)
Definition dispatch (ref : nat) (type : string) (event : Event) (w : World) : World :=
  mkWorld (listeners w)
    (fold_left
       (fun s l =>
          if bool_decide (l_target l = ref ∧ l_type l = type)
          then fn_call (l_callback l) event s else s)
       (listeners w) (spawned w))
    (calls w) (next_fn w).

Definition dispatch_all (es : list (nat * string * Event)) (w : World) : World :=
  fold_left (fun w '(ref, type, event) => dispatch ref type event w) es w.

(** Function identities are handed out in increasing order: every
    registered callback was made before the next one to come. *)
Definition well_formed (w : World) : Prop :=
  Forall (λ l, fn_id (l_callback l) < next_fn w) (listeners w).

End WithEvents.

Arguments Handler : clear implicits.
Arguments Listener : clear implicits.
Arguments World : clear implicits.
Arguments Kill : clear implicits.

(** [Result] and [Maybe] of the core library. *)
Inductive Result (X A : Type) : Type :=
| Ok (a : A)
| Err (x : X).

Arguments Ok {X A} a.
Arguments Err {X A} x.

Inductive Maybe (A : Type) : Type :=
| Just (a : A)
| Nothing.

Arguments Just {A} a.
Arguments Nothing {A}.

Section WithDecoder.
Context {Event Msg X : Type}.

(** A decoder for event handlers yields the message and the
    prevent-default flag, read as [result.a.a] and [result.a.b]. *)
Definition Decoder : Type := Event → Result X (Msg * bool).

(** [__Json_runHelp(decoder, event)] *)
Definition runHelp (decoder : Decoder) (event : Event) : Result X (Msg * bool) :=
  decoder event.

(** [event.preventDefault()]: the host notes the event. *)
Definition preventDefault (event : Event) (prevented : list Event) : list Event :=
  prevented ++ [event].

(** [_Browser_decodeEvent(decoder, event)]; the test [__Result_isOk(result)]
    and the reads of [result.a] are the [match]. *)
Definition _Browser_decodeEvent (decoder : Decoder) (event : Event)
    (prevented : list Event) : Maybe Msg * list Event :=
  let result := runHelp decoder event in
  match result with
  | Ok a =>
      let prevented := if snd a then preventDefault event prevented else prevented in
      (Just (fst a), prevented)
  | Err _ => (Nothing, prevented)
  end.

End WithDecoder.

End Events.


(** ** Document mode: the draw function of [_Browser_document] *)

Module Document.

Section WithRenderer.
(** The application's model, and the renderer's virtual nodes, DOM nodes
    and patches. *)
Context {Model Body VNode DomNode Patches : Type}.

(** What [view] returns: [doc.__$title] and [doc.__$body]. *)
Record Doc : Type := mkDoc {
  doc_title : string;
  doc_body : Body
}.

Variable view : Model → Doc.                              (* impl.__$view *)
Variable virtualize : DomNode → VNode.                    (* _VirtualDom_virtualize *)
Variable body_node : Body → VNode.                        (* __VirtualDom_node('body')(__List_Nil) *)
Variable diff : VNode → VNode → Patches.                  (* __VirtualDom_diff *)
Variable applyPatches : DomNode → VNode → Patches → DomNode.  (* __VirtualDom_applyPatches *)

(** The host document [__VirtualDom_doc]: its title and body, every
    assignment to [title], and every patch set applied to the body. *)
Record Host : Type := mkHost {
  host_title : string;
  host_body : DomNode;
  title_writes : list string;
  patches_applied : list Patches
}.

(** The variables [title], [bodyNode] and [currNode] the draw function
    closes over. *)
Record Closure : Type := mkClosure {
  title : string;
  bodyNode : DomNode;
  currNode : VNode
}.

(** [var title = __VirtualDom_doc.title; var bodyNode = __VirtualDom_doc.body;
    var currNode = _VirtualDom_virtualize(bodyNode);] *)
Definition startup (h : Host) : Closure :=
  mkClosure (host_title h) (host_body h) (virtualize (host_body h)).

(** [__VirtualDom_doc.title = t] *)
Definition write_title (t : string) (h : Host) : Host :=
  mkHost t (host_body h) (title_writes h ++ [t]) (patches_applied h).

(** The effect of [__VirtualDom_applyPatches] on the host's body. *)
Definition patch_body (node : DomNode) (patches : Patches) (h : Host) : Host :=
  mkHost (host_title h) node (title_writes h) (patches_applied h ++ [patches]).

(** The function given to [_Browser_makeAnimator] in [_Browser_document]. *)
Definition draw (model : Model) (s : Closure * Host) : Closure * Host :=
  let '(c, h) := s in
  let doc := view model in
  let nextNode := body_node (doc_body doc) in
  let patches := diff (currNode c) nextNode in
  let bodyNode' := applyPatches (bodyNode c) (currNode c) patches in
  let h := patch_body bodyNode' patches h in
  let currNode' := nextNode in
  if decide (title c ≠ doc_title doc)
  then (mkClosure (doc_title doc) bodyNode' currNode', write_title (doc_title doc) h)
  else (mkClosure (title c) bodyNode' currNode', h).

(** A host document with title [t] and body [b] on which nothing has been
    done yet. *)
Definition fresh_host (t : string) (b : DomNode) : Host :=
  mkHost t b [] [].

(** The program started on host [h0] and drawn with [models], first to last. *)
Definition draws (models : list Model) (h0 : Host) : Closure * Host :=
  fold_left (fun s m => draw m s) models (startup h0, h0).

(** The title most recently written by a draw; before the first write,
    the title [t0] read at startup. *)
Definition last_written (t0 : string) (h : Host) : string :=
  default t0 (last (title_writes h)).

End WithRenderer.

Arguments Doc : clear implicits.
Arguments Host : clear implicits.
Arguments Closure : clear implicits.

End Document.


(** ** The animator seen through what it draws *)

Module AnimatorRuns.
Import Animator.

Section WithModel.
Context {Model : Type}.

(** The models handed to [draw] in a trace, first to last. *)
Definition drawn (t : list (HostCall Model)) : list Model :=
  omap (λ c, match c with Draw m => Some m | _ => None end) t.

(** The model of the most recent draw: what the user sees. *)
Definition on_screen (t : list (HostCall Model)) : option Model :=
  last (drawn t).

(** Asynchronous notifications of the models [ms], one after the other. *)
Definition notify_all (ms : list Model) : list (Event Model) :=
  map (λ m, Notify m false) ms.

(** The model notified last in [es], or [m0] when none was. *)
Definition latest (es : list (Event Model)) (m0 : Model) : Model :=
  fold_left (λ m e, match e with Notify m' _ => m' | Frame => m end) es m0.

(** Unless a request is pending, the screen shows the stored model. *)
Definition shown (a : Animator Model) : Prop :=
  state a ≠ PENDING_REQUEST → on_screen (trace a) = Some (model a).

End WithModel.

End AnimatorRuns.

(** ** Fake navigation: [_Browser_go], [_Browser_pushState],
    [_Browser_replaceState] and [_Browser_getUrl] *)

Module History.
Import Js Scheduler.

(** Calls on the host's [history] object, in program order. *)
Inductive HostCall : Set :=
| HistoryGo (n : Z)                    (* history.go(n) *)
| HistoryPushState (url : string)      (* history.pushState({}, '', url) *)
| HistoryReplaceState (url : string).  (* history.replaceState({}, '', url) *)

(** What these tasks succeed with: [__Utils_Tuple0] or a URL string. *)
Inductive Value : Set :=
| Tuple0
| Url (href : string).

Section WithHost.
(** [X] is the type of errors; these tasks never fail with one. *)
Context {X : Type}.

(** The host's business: the URL that [url] stands for at the location
    [base], and whether the host refuses to make it the location of a
    history entry (it then throws). *)
Variable resolve : string → string → string.
Variable refused : string → string → bool.

Record Host : Type := mkHost {
  href : string;                    (* __VirtualDom_doc.location.href *)
  calls : list HostCall;
  resolved : list (Task X Value)    (* values passed to the completion callback *)
}.

Definition Callback : Type := Task X Value → Host → Host.

Definition resume : Callback :=
  fun t h => mkHost (href h) (calls h) (resolved h ++ [t]).

(** [history.go(n)]: the traversal itself happens later, in a task of the
    host; the location is not changed by the call. *)
Definition history_go (n : Z) (h : Host) : Host :=
  mkHost (href h) (calls h ++ [HistoryGo n]) (resolved h).

(** [history.pushState({}, '', url)] *)
Definition history_pushState (url : string) (h : Host) : Completion () Host :=
  if refused (href h) url
  then Throw "SecurityError" (mkHost (href h) (calls h ++ [HistoryPushState url]) (resolved h))
  else Normal () (mkHost (resolve (href h) url) (calls h ++ [HistoryPushState url]) (resolved h)).

(** [history.replaceState({}, '', url)] *)
Definition history_replaceState (url : string) (h : Host) : Completion () Host :=
  if refused (href h) url
  then Throw "SecurityError" (mkHost (href h) (calls h ++ [HistoryReplaceState url]) (resolved h))
  else Normal () (mkHost (resolve (href h) url) (calls h ++ [HistoryReplaceState url]) (resolved h)).

(** [_Browser_getUrl()] *)
Definition _Browser_getUrl (h : Host) : string := href h.

(** The function given to [__Scheduler_binding] in [_Browser_go]. *)
Definition _Browser_go (n : Z) (callback : Callback) (h : Host) : Completion () Host :=
  let h := if decide (n ≠ 0%Z) then history_go n h else h in
  Normal () (callback (succeed Tuple0) h).

(** The function given to [__Scheduler_binding] in [_Browser_pushState]. *)
Definition _Browser_pushState (url : string) (callback : Callback) (h : Host)
    : Completion () Host :=
  match history_pushState url h with
  | Throw err h => Throw err h
  | Normal _ h => Normal () (callback (succeed (Url (_Browser_getUrl h))) h)
  end.

(** The function given to [__Scheduler_binding] in [_Browser_replaceState]. *)
Definition _Browser_replaceState (url : string) (callback : Callback) (h : Host)
    : Completion () Host :=
  match history_replaceState url h with
  | Throw err h => Throw err h
  | Normal _ h => Normal () (callback (succeed (Url (_Browser_getUrl h))) h)
  end.

End WithHost.

Arguments Host : clear implicits.
Arguments Callback : clear implicits.

End History.

(** ** Detecting Internet Explorer 11: [_Browser_isInternetExplorer11] *)

Module UserAgent.

(** [s.indexOf(needle)]: the first position of [needle] in [s], or [-1]. *)
Definition indexOf (needle s : string) : Z :=
  match String.index 0 needle s with
  | Some i => Z.of_nat i
  | None => (-1)%Z
  end.

(** [window.navigator.userAgent.indexOf('Trident') !== -1] *)
Definition _Browser_isInternetExplorer11 (userAgent : string) : bool :=
  negb (indexOf "Trident" userAgent =? -1)%Z.

End UserAgent.

(** ** Element mode: the draw function of [_Browser_element] *)

Module Element.

Section WithRenderer.
Context {Model VNode DomNode Patches : Type}.

Variable view : Model → VNode.                            (* impl.__$view *)
Variable virtualize : DomNode → VNode.                    (* _VirtualDom_virtualize *)
Variable diff : VNode → VNode → Patches.                  (* __VirtualDom_diff *)
Variable applyPatches : DomNode → VNode → Patches → DomNode.  (* __VirtualDom_applyPatches *)

(** The variables [domNode] and [currNode] the draw function closes over,
    and the patch sets it has had applied. *)
Record Closure : Type := mkClosure {
  domNode : DomNode;
  currNode : VNode;
  patches_applied : list Patches
}.

(** [var domNode = args['node']; var currNode = _VirtualDom_virtualize(domNode);] *)
Definition startup (node : DomNode) : Closure :=
  mkClosure node (virtualize node) [].

(** The function given to [_Browser_makeAnimator] in [_Browser_element]. *)
Definition draw (model : Model) (c : Closure) : Closure :=
  let nextNode := view model in
  let patches := diff (currNode c) nextNode in
  let domNode' := applyPatches (domNode c) (currNode c) patches in
  mkClosure domNode' nextNode (patches_applied c ++ [patches]).

(** The program started on [node] and drawn with [models], first to last. *)
Definition draws (models : list Model) (node : DomNode) : Closure :=
  fold_left (fun c m => draw m c) models (startup node).

End WithRenderer.

Arguments Closure : clear implicits.

End Element.

(** ** Calling a method of a node: [_Browser_call] *)

Module DomCalls.

Section WithHost.
Context {Node : Type}.

(** [node[functionName]()]: what the host's method does to the node. *)
Variable invoke : string → Node → Node.

(** [_Browser_call(functionName, id)] *)
Definition _Browser_call (functionName id : string)
    : Dom.Callback Node () → Dom.Host Node () → Dom.Host Node () :=
  Dom._Browser_withNode id (fun node => (invoke functionName node, ())).

End WithHost.

End DomCalls.

(** ** Events decoded one after the other *)

Module EventStream.
Import Events.

Section WithDecoder.
Context {Event Msg X : Type}.

(** The host delivers [events] in order; each goes through
    [_Browser_decodeEvent].  The result is the messages produced and the
    events whose default was prevented. *)
Fixpoint decodeEvents (decoder : Decoder (Event := Event) (Msg := Msg) (X := X))
    (events : list Event) (prevented : list Event) : list Msg * list Event :=
  match events with
  | [] => ([], prevented)
  | event :: events' =>
      let '(r, prevented) := _Browser_decodeEvent decoder event prevented in
      let '(msgs, prevented) := decodeEvents decoder events' prevented in
      (match r with Just msg => msg :: msgs | Nothing => msgs end, prevented)
  end.

(** The message a decoder gives for an event, if any, and its flag. *)
Definition decoded (decoder : Decoder (Event := Event) (Msg := Msg) (X := X))
    (event : Event) : option Msg :=
  match decoder event with Ok a => Some a.1 | Err _ => None end.

Definition suppresses (decoder : Decoder (Event := Event) (Msg := Msg) (X := X))
    (event : Event) : bool :=
  match decoder event with Ok a => a.2 | Err _ => false end.

End WithDecoder.

End EventStream.


(** ** Title writes without repetition *)

Module DocumentRuns.

(** No title in [writes] equals the one before it, [prev] being the one
    before the first. *)
Fixpoint changes_only (prev : string) (writes : list string) : Prop :=
  match writes with
  | [] => True
  | t :: writes' => prev ≠ t ∧ changes_only t writes'
  end.

End DocumentRuns.

(** * Properties *)

(** ** The render coalescer *)

Section AnimatorFacts.
Import Animator.
Context {Model : Type}.
Implicit Types (a : Animator Model) (m : Model) (t : list (HostCall Model)).

#[local] Arguments requested {_} _ : simpl never.
#[local] Arguments fired {_} _ : simpl never.

Lemma trace_counts_nil :
  requested (@nil (HostCall Model)) = 0 ∧ fired (@nil (HostCall Model)) = 0.
Proof. done. Qed.

Lemma requested_snoc t c :
  requested (t ++ [c]) = requested t + (if is_request c then 1 else 0).
Proof.
  unfold requested. rewrite filter_app, length_app.
  destruct c; reflexivity.
Qed.

Lemma fired_snoc t c :
  fired (t ++ [c]) = fired t + (if is_fire c then 1 else 0).
Proof.
  unfold fired. rewrite filter_app, length_app.
  destruct c; reflexivity.
Qed.

Lemma prefix_snoc_cases t l (c : HostCall Model) :
  t `prefix_of` l ++ [c] → t `prefix_of` l ∨ t = l ++ [c].
Proof.
  intros [k Hk]. destruct k as [|y k _] using rev_ind.
  - right. rewrite app_nil_r in Hk. congruence.
  - left. rewrite app_assoc in Hk. apply app_inj_tail in Hk as [-> _].
    by apply prefix_app_r.
Qed.

Lemma balanced_snoc t c :
  balanced t →
  fired (t ++ [c]) ≤ requested (t ++ [c]) →
  requested (t ++ [c]) ≤ fired (t ++ [c]) + 1 →
  balanced (t ++ [c]).
Proof.
  intros Ht H1 H2 p Hp.
  destruct (prefix_snoc_cases _ _ _ Hp) as [Hp'| ->]; [by apply Ht | done].
Qed.

(** Extends a balanced trace by one call, counting requests and fires. *)
Ltac count_calls :=
  rewrite ?requested_snoc, ?fired_snoc,
    ?(proj1 trace_counts_nil), ?(proj2 trace_counts_nil); cbn.
Ltac extend_balanced :=
  repeat (apply balanced_snoc; [|count_calls; lia|count_calls; lia]); try assumption.

Lemma coalesced_make m : coalesced (_Browser_makeAnimator m).
Proof.
  split; cbn; try done.
  change [Draw m] with ([] ++ [Draw m]).
  extend_balanced.
  intros p Hp. apply prefix_nil_inv in Hp as ->. count_calls. lia.
Qed.

Lemma coalesced_queued a : coalesced a → queued a ≤ 1.
Proof.
  intros [_ _ Hi Hn].
  destruct (decide (state a = NO_REQUEST)) as [Hs|Hs];
    [rewrite (Hi Hs) | rewrite (Hn Hs)]; lia.
Qed.

Lemma coalesced_notify m isSync a : coalesced a → coalesced (notify m isSync a).
Proof.
  intros Ha. pose proof (coalesced_queued a Ha) as Hle.
  destruct Ha as [Hb Hq Hi Hn]. unfold notify.
  destruct isSync; cbn.
  - case_decide as Hs; split; cbn; count_calls; try lia; try congruence;
      try extend_balanced.
    intros _. apply Hn. congruence.
  - case_decide as Hs; [specialize (Hi Hs)|];
      split; cbn; count_calls; try congruence; try lia; try extend_balanced.
    intros _. by apply Hn.
Qed.

Lemma coalesced_fire a a' : coalesced a → fire a = Some a' → coalesced a'.
Proof.
  intros [Hb Hq Hi Hn]. unfold fire.
  destruct (queued a) as [|n] eqn:Hqa; [done|].
  intros [= <-].
  assert (Hne : state a ≠ NO_REQUEST) by (intros Hs; specialize (Hi Hs); lia).
  specialize (Hn Hne). assert (n = 0) as -> by lia.
  unfold updateIfNeeded; cbn.
  case_decide as Hs; split; cbn; count_calls; try lia; try congruence;
    extend_balanced.
Qed.

Lemma coalesced_run es : ∀ a a', coalesced a → run es a = Some a' → coalesced a'.
Proof.
  induction es as [|e es IH]; intros a a' Ha; cbn.
  - by intros [= <-].
  - destruct e as [m isSync|]; cbn.
    + apply IH. by apply coalesced_notify.
    + destruct (fire a) as [a1|] eqn:Hf; [|done].
      apply IH. by eapply coalesced_fire.
Qed.

(** C1, amended to what the code does: fired in state [EXTRA_REQUEST], the
    frame callback only sets the state to [NO_REQUEST], with no frame
    request and no draw; fired in any other state, it requests another
    frame, then draws the latest stored model, and sets the state to
    [EXTRA_REQUEST]. *)
Theorem updateIfNeeded_transitions a :
  (state a = EXTRA_REQUEST →
     state (updateIfNeeded a) = NO_REQUEST
     ∧ calls_since a (updateIfNeeded a) []
     ∧ queued (updateIfNeeded a) = queued a
     ∧ model (updateIfNeeded a) = model a)
  ∧ (state a ≠ EXTRA_REQUEST →
     state (updateIfNeeded a) = EXTRA_REQUEST
     ∧ calls_since a (updateIfNeeded a) [RequestFrame; Draw (model a)]
     ∧ queued (updateIfNeeded a) = S (queued a)
     ∧ model (updateIfNeeded a) = model a).
Proof.
  unfold updateIfNeeded, calls_since.
  split; intros Hs; case_decide; try congruence; cbn.
  - by rewrite app_nil_r.
  - by rewrite <- app_assoc.
Qed.

(** C2, amended: an asynchronous notify on an animator in state
    [PENDING_REQUEST] or [EXTRA_REQUEST] stores the new model and sets the
    state to [PENDING_REQUEST]; it requests no frame and draws nothing.
    In state [PENDING_REQUEST] the stored model is all that changes. *)
Theorem notify_async_while_requested a m :
  state a = PENDING_REQUEST ∨ state a = EXTRA_REQUEST →
  model (notify m false a) = m
  ∧ state (notify m false a) = PENDING_REQUEST
  ∧ calls_since a (notify m false a) []
  ∧ queued (notify m false a) = queued a
  ∧ (state a = PENDING_REQUEST → notify m false a = set_model m a).
Proof.
  intros Hs. unfold notify, calls_since. cbn.
  case_decide as Hno; [destruct Hs; congruence|]. cbn.
  rewrite app_nil_r. repeat split.
  intros Hp. unfold set_state, set_model. cbn. by rewrite Hp.
Qed.

(** C3: after any sequence of notify calls and frame firings on a newly
    made animator, at every point of the trace at most one frame request
    is outstanding, and the host has fired none that was not requested. *)
Theorem at_most_one_frame_outstanding m (es : list (Event Model)) a :
  run es (_Browser_makeAnimator m) = Some a →
  ∀ t, t `prefix_of` trace a →
    fired t ≤ requested t ∧ outstanding t ≤ 1.
Proof.
  intros Hrun t Ht.
  pose proof (coalesced_run es _ _ (coalesced_make m) Hrun) as [Hb _ _ _].
  destruct (Hb t Ht). unfold outstanding. lia.
Qed.

End AnimatorFacts.

Section AnimatorCounterexamples.
Import Animator.

(** The claim C1 as the specification words it fails on an animator that
    two events reach: fired in state [EXTRA_REQUEST], the frame callback
    requests no frame, draws nothing and leaves the state at [NO_REQUEST];
    and fired in state [PENDING_REQUEST] it does not go to [NO_REQUEST]. *)
Lemma updateIfNeeded_as_claimed_counterexample :
  ∃ a : Animator nat,
    run [Notify 1 false; Frame] (_Browser_makeAnimator 0) = Some a
    ∧ state a = EXTRA_REQUEST
    ∧ ¬ (∃ cs, calls_since a (updateIfNeeded a) cs
              ∧ RequestFrame ∈ cs ∧ Draw (model a) ∈ cs
              ∧ state (updateIfNeeded a) ≠ NO_REQUEST)
    ∧ ¬ (state (updateIfNeeded (notify 2 false a)) = NO_REQUEST).
Proof.
  eexists. split; [reflexivity|]. split; [reflexivity|]. split.
  - intros (cs & _ & _ & _ & Hs). by apply Hs.
  - discriminate.
Qed.

(** The claim C2 as the specification words it fails in state
    [EXTRA_REQUEST]: the asynchronous call changes the animator state. *)
Lemma notify_async_as_claimed_counterexample :
  ∃ a : Animator nat,
    run [Notify 1 false; Frame] (_Browser_makeAnimator 0) = Some a
    ∧ ¬ (state a = PENDING_REQUEST ∨ state a = EXTRA_REQUEST →
         notify 2 false a = set_model 2 a).
Proof.
  eexists. split; [reflexivity|].
  intros H. specialize (H (or_intror eq_refl)). discriminate H.
Qed.

End AnimatorCounterexamples.

Lemma updateIfNeeded_transitions_witness :
  let extra := Animator.mkAnimator 5 Animator.EXTRA_REQUEST 1 [Animator.Draw 5] in
  let pending := Animator.mkAnimator 5 Animator.PENDING_REQUEST 0 [Animator.Draw 4] in
  Animator.state (Animator.updateIfNeeded extra) = Animator.NO_REQUEST
  ∧ Animator.trace (Animator.updateIfNeeded pending)
    = [Animator.Draw 4; Animator.RequestFrame; Animator.Draw 5].
Proof.
  intros extra pending. split.
  - apply (proj1 (updateIfNeeded_transitions extra)). reflexivity.
  - apply (proj1 (proj2 (proj2 (updateIfNeeded_transitions pending) ltac:(discriminate)))).
Defined.

Lemma notify_async_while_requested_witness :
  let a := Animator.mkAnimator 5 Animator.EXTRA_REQUEST 1 [Animator.Draw 5] in
  Animator.state (Animator.notify 6 false a) = Animator.PENDING_REQUEST.
Proof.
  intros a.
  apply (proj1 (proj2 (notify_async_while_requested a 6 (or_intror eq_refl)))).
Defined.

Lemma at_most_one_frame_outstanding_witness :
  ∃ a : Animator.Animator nat,
    Animator.run
      [Animator.Notify 1 false; Animator.Notify 2 false; Animator.Frame;
       Animator.Notify 3 true; Animator.Notify 4 false; Animator.Frame]
      (Animator._Browser_makeAnimator 0) = Some a
    ∧ Animator.outstanding (Animator.trace a) ≤ 1.
Proof.
  eexists. split; [reflexivity|].
  refine (proj2 (at_most_one_frame_outstanding 0
    [Animator.Notify 1 false; Animator.Notify 2 false; Animator.Frame;
     Animator.Notify 3 true; Animator.Notify 4 false; Animator.Frame]
    _ eq_refl _ _)).
  reflexivity.
Defined.

(** ** Real navigation *)

Section NavigationFacts.
Import Js Navigation.
Context {R : Type}.
Variable malformed : string → bool.
Implicit Types (h : Host R) (callback : Callback R).

Lemma reload_never_resolves skipCache callback h :
  _Browser_reload skipCache callback h
  = Normal () (mkHost (calls h ++ [LocationReload skipCache]) (resolved h)).
Proof. reflexivity. Qed.

(** C5: when the host throws on the location assignment, [_Browser_load]
    ends normally after a [reload(false)]; when the host does not throw,
    the assignment is all it does; and neither [_Browser_load] nor
    [_Browser_reload] ever hands a value to the completion callback. *)
Theorem load_catches_and_reloads url callback h :
  (malformed url = true →
     _Browser_load malformed url callback h
     = Normal () (mkHost (calls h ++ [LocationAssign url; LocationReload false])
                    (resolved h)))
  ∧ (malformed url = false →
     _Browser_load malformed url callback h
     = Normal () (mkHost (calls h ++ [LocationAssign url]) (resolved h)))
  ∧ resolved (state_of (_Browser_load malformed url resume h)) = resolved h
  ∧ (∀ skipCache,
       resolved (state_of (_Browser_reload skipCache resume h)) = resolved h).
Proof.
  unfold _Browser_load, try_catch, location_assign, location_reload.
  repeat split.
  - intros ->. cbn. by rewrite <- app_assoc.
  - by intros ->.
  - by destruct (malformed url).
Qed.

End NavigationFacts.

Lemma load_catches_and_reloads_witness :
  let malformed := String.eqb "http://[" in
  let h := Navigation.mkHost [] (@nil nat) in
  malformed "http://[" = true
  ∧ Navigation._Browser_load malformed "http://[" Navigation.resume h
    = Js.Normal ()
        (Navigation.mkHost
           [Navigation.LocationAssign "http://["; Navigation.LocationReload false] [])
  ∧ malformed "/next" = false
  ∧ Navigation._Browser_load malformed "/next" Navigation.resume h
    = Js.Normal () (Navigation.mkHost [Navigation.LocationAssign "/next"] []).
Proof.
  intros malformed h.
  split; [reflexivity|]. split.
  - apply (proj1 (load_catches_and_reloads malformed "http://[" Navigation.resume h)).
    reflexivity.
  - split; [reflexivity|].
    apply (proj1 (proj2 (load_catches_and_reloads malformed "/next" Navigation.resume h))).
    reflexivity.
Defined.

(** ** DOM queries *)

Section DomFacts.
Import Scheduler Dom.
Context {Num Node : Type}.
Variable sub : Num → Num → Num.
Variable get_prop : string → Node → Num.
Variable set_prop : string → Num → Node → Node.

Lemma exec_withNode {A} id (doStuff : Node → Node * A) (p : Page Node A) :
  exec (_Browser_withNode id doStuff) p
  = match document p !! id with
    | Some node =>
        mkPage (<[id := (doStuff node).1]> (document p)) (lookups p ++ [id])
          (resolved p ++ [succeed (doStuff node).2])
    | None =>
        mkPage (document p) (lookups p ++ [id]) (resolved p ++ [fail (NotFound id)])
    end.
Proof.
  unfold exec, flush, _Browser_withNode, _Browser_requestAnimationFrame. cbn.
  destruct (document p !! id) as [node|]; [|done].
  by destruct (doStuff node).
Qed.

(** C6: starting [_Browser_withNode(id, f)] looks nothing up and resolves
    nothing; it leaves one callback [k] for the next animation frame.
    Called on the page [p] of that frame, [k] looks [id] up once and
    resolves with [succeed (f node)] when [p] has such a node, and with
    [fail (NotFound id)] when it has none. *)
Theorem withNode_next_frame {A} id (doStuff : Node → Node * A) (h : Host Node A) :
  ∃ k : Page Node A → Page Node A,
    _Browser_withNode id doStuff resume h = mkHost (page h) (frames h ++ [k])
    ∧ (∀ p, tick (mkHost p [k]) = Some (mkHost (k p) []))
    ∧ ∀ p,
        lookups (k p) = lookups p ++ [id]
        ∧ (∀ node, document p !! id = Some node →
             resolved (k p) = resolved p ++ [succeed (doStuff node).2]
             ∧ document (k p) = <[id := (doStuff node).1]> (document p))
        ∧ (document p !! id = None →
             resolved (k p) = resolved p ++ [fail (NotFound id)]
             ∧ document (k p) = document p).
Proof.
  eexists. split; [reflexivity|]. split; [done|].
  intros p. cbn. destruct (document p !! id) as [node|] eqn:Hid.
  - destruct (doStuff node) as [node' a] eqn:Hdo. cbn.
    split; [done|]. split; [|done].
    intros ? [= <-]. by rewrite Hdo.
  - cbn. done.
Qed.

(** C8: on a node whose [scrollMax] property reads [M], the negative
    setter with [offset] leaves the page, and so the node's scroll
    position, exactly as the positive setter with [M - offset] does. *)
Theorem setNegativeScroll_as_positive scroll scrollMax id offset M
    (p : Page Node ()) node :
  document p !! id = Some node →
  get_prop scrollMax node = M →
  exec (_Browser_setNegativeScroll sub get_prop set_prop scroll scrollMax id offset) p
  = exec (_Browser_setPositiveScroll set_prop scroll id (sub M offset)) p
  ∧ scroll_position get_prop scroll id
      (exec (_Browser_setNegativeScroll sub get_prop set_prop scroll scrollMax id offset) p)
    = Some (get_prop scroll (set_prop scroll (sub M offset) node))
  ∧ scroll_position get_prop scroll id
      (exec (_Browser_setPositiveScroll set_prop scroll id (sub M offset)) p)
    = Some (get_prop scroll (set_prop scroll (sub M offset) node)).
Proof.
  intros Hid HM.
  unfold _Browser_setNegativeScroll, _Browser_setPositiveScroll, scroll_position.
  rewrite !exec_withNode, Hid. cbn. rewrite HM.
  by rewrite lookup_insert_eq.
Qed.

End DomFacts.

Lemma withNode_next_frame_witness :
  let doStuff := λ node : nat, (node + 1, node * 2) in
  let found := Dom.mkPage (A := nat) {[ "app" := 3 ]} [] [] in
  let missing := Dom.mkPage (A := nat) (∅ : gmap string nat) [] [] in
  ∃ k,
    Dom._Browser_withNode "app" doStuff Dom.resume (Dom.mkHost missing [])
    = Dom.mkHost missing [k]
    ∧ Dom.resolved (k found) = [Scheduler.succeed 6]
    ∧ Dom.resolved (k missing) = [Scheduler.fail (Dom.NotFound "app")].
Proof.
  intros doStuff found missing.
  destruct (withNode_next_frame "app" doStuff (Dom.mkHost missing []))
    as (k & Hstart & _ & Hframe).
  exists k. split; [exact Hstart|]. split.
  - destruct (Hframe found) as (_ & Hfound & _).
    exact (proj1 (Hfound 3 eq_refl)).
  - destruct (Hframe missing) as (_ & _ & Hmissing).
    exact (proj1 (Hmissing eq_refl)).
Defined.

Lemma setNegativeScroll_as_positive_witness :
  let get_prop := λ (p : string) (node : gmap string Z), default 0%Z (node !! p) in
  let set_prop := λ (p : string) (v : Z) (node : gmap string Z), <[p := v]> node in
  let box : gmap string Z := {[ "scrollWidth" := 500%Z; "scrollLeft" := 0%Z ]} in
  let p := Dom.mkPage (A := ()) {[ "box" := box ]} [] [] in
  Dom.document p !! "box" = Some box
  ∧ get_prop "scrollWidth" box = 500%Z
  ∧ Dom.scroll_position get_prop "scrollLeft" "box"
      (Dom.exec
         (Dom._Browser_setNegativeScroll Z.sub get_prop set_prop
            "scrollLeft" "scrollWidth" "box" 120%Z) p)
    = Some (get_prop "scrollLeft" (set_prop "scrollLeft" (500 - 120)%Z box)).
Proof.
  intros get_prop set_prop box p.
  split; [reflexivity|]. split; [reflexivity|].
  exact (proj1 (proj2 (setNegativeScroll_as_positive Z.sub get_prop set_prop
    "scrollLeft" "scrollWidth" "box" 120%Z 500%Z p box eq_refl eq_refl))).
Defined.

(** ** Global events *)

Section EventsFacts.
Import Js Events.
Context {Event Task : Type}.
Variable passiveSupported : bool.
Implicit Types (w : World Event Task) (ls : list (Listener Event Task)).

Lemma passive_option_capture passive :
  capture_of (passive_option passiveSupported passive) = false.
Proof. unfold passive_option. by destruct passiveSupported. Qed.

Lemma host_add_fresh ref type (h : Handler Event Task) options ls :
  Forall (λ l, fn_id (l_callback l) < fn_id h) ls →
  host_add ref type h options ls
  = ls ++ [mkListener ref type h (capture_of options) (passive_of options)].
Proof.
  intros Hls. unfold host_add.
  replace (existsb _ ls) with false; [done|].
  induction Hls as [|l ls Hl _ IH]; [done|]. cbn.
  rewrite <- IH, orb_false_r. symmetry. apply bool_decide_eq_false. lia.
Qed.

Lemma host_remove_added ref type (h : Handler Event Task) capture passive ls :
  Forall (λ l, fn_id (l_callback l) < fn_id h) ls →
  filter (λ l, negb (same_listener ref type (fn_id h) capture l))
    (ls ++ [mkListener ref type h capture passive])
  = ls.
Proof.
  intros Hls. rewrite filter_app.
  rewrite (filter_cons_False _ _ []).
  - rewrite filter_nil, app_nil_r.
    induction Hls as [|l ls Hl _ IH]; [done|].
    rewrite filter_cons_True, IH; [done|].
    apply negb_prop_intro. unfold same_listener.
    rewrite bool_decide_spec. lia.
  - intros H. apply negb_prop_elim in H. apply H. unfold same_listener.
    by rewrite bool_decide_spec.
Qed.

(** What the host delivers depends on the listener list alone. *)
Lemma dispatch_all_listeners es : ∀ w w',
  listeners w = listeners w' → spawned w = spawned w' →
  listeners (dispatch_all es w) = listeners (dispatch_all es w')
  ∧ spawned (dispatch_all es w) = spawned (dispatch_all es w').
Proof.
  induction es as [|[[ref type] event] es IH]; intros w w' Hl Hs; [done|].
  cbn. apply IH; cbn; [done|]. by rewrite Hl, Hs.
Qed.

Lemma dispatch_all_no_listeners es : ∀ w,
  listeners w = [] → spawned (dispatch_all es w) = spawned w.
Proof.
  induction es as [|[[ref type] event] es IH]; intros w Hl; [done|].
  change (dispatch_all ((ref, type, event) :: es) w)
    with (dispatch_all es (dispatch ref type event w)).
  rewrite IH; cbn; [|done]. by rewrite Hl.
Qed.

(** C4, amended: the teardown calls [removeEventListener] with the same
    node, event name and handler function as the [addEventListener] call
    and with no configuration argument, where the add call passed
    [passiveSupported && { passive: passive }]; both read as capture
    [false], which with node, name and handler is what identifies a
    listener to the host, so the teardown removes the listener the
    subscription added and no other. *)
Theorem on_teardown_removes_added_listener node passive eventName
    (sendToSelf : Event → Task) w :
  node ≠ NoObject →
  ∃ kill w1,
    _Browser_on passiveSupported node passive eventName sendToSelf w = Normal kill w1
    ∧ calls w1
      = calls w ++ [AddEventListener node eventName (next_fn w)
                      (passive_option passiveSupported passive)]
    ∧ capture_of (passive_option passiveSupported passive) = capture_of JsUndefined
    ∧ (∀ w2, ∃ w3,
         kill w2 = Normal () w3
         ∧ calls w3
           = calls w2 ++ [RemoveEventListener node eventName (next_fn w) JsUndefined]
         ∧ (∀ ref, node = HostTarget ref →
              listeners w3
              = filter (λ l, negb (same_listener ref eventName (next_fn w) false l))
                  (listeners w2)))
    ∧ (∀ ref, node = HostTarget ref → well_formed w →
         listeners w1
         = listeners w
           ++ [mkListener ref eventName
                 (mkHandler (next_fn w) (λ event, rawSpawn (sendToSelf event)))
                 false (passive_of (passive_option passiveSupported passive))]
         ∧ listeners (state_of (kill w1)) = listeners w).
Proof.
  intros Hnode. unfold _Browser_on, new_handler.
  destruct node as [ref| |]; [| |done]; cbn.
  - do 2 eexists. split; [reflexivity|]. cbn. split; [done|].
    split; [apply passive_option_capture|]. split.
    + intros w2. eexists. split; [reflexivity|]. cbn. split; [done|].
      by intros ? [= <-].
    + intros ? [= <-] Hwf.
      rewrite host_add_fresh by exact Hwf.
      rewrite passive_option_capture. split; [done|].
      unfold host_remove. cbn.
      by rewrite (host_remove_added ref eventName
                    (mkHandler (next_fn w) _) false _ (listeners w) Hwf).
  - do 2 eexists. split; [reflexivity|]. cbn. split; [done|].
    split; [apply passive_option_capture|]. split; [|done].
    intros w2. eexists. split; [reflexivity|]. cbn. by split.
Qed.

(** C10: where [document] (or [window]) is undefined, [_Browser_doc] (or
    [_Browser_window]) is the fake node; subscribing on it and cancelling
    end normally, register nothing with the host and hand nothing to the
    scheduler, and whatever events the host then delivers, the scheduler
    is handed exactly what it would have been handed without the
    subscription: nothing at all when no other listener is registered. *)
Theorem fakeNode_subscription_is_inert (g : Globals) node passive eventName
    (sendToSelf : Event → Task) w :
  (node = _Browser_doc g ∧ g_document g = None)
  ∨ (node = _Browser_window g ∧ g_window g = None) →
  node = _Browser_fakeNode
  ∧ ∃ kill w1,
      _Browser_on passiveSupported node passive eventName sendToSelf w = Normal kill w1
      ∧ listeners w1 = listeners w
      ∧ spawned w1 = spawned w
      ∧ (∀ w2, ∃ w3,
           kill w2 = Normal () w3
           ∧ listeners w3 = listeners w2 ∧ spawned w3 = spawned w2)
      ∧ (∀ es, spawned (dispatch_all es w1) = spawned (dispatch_all es w))
      ∧ (∀ es w2, spawned (dispatch_all es (state_of (kill w2)))
                  = spawned (dispatch_all es w2))
      ∧ (listeners w = [] → ∀ es, spawned (dispatch_all es w1) = spawned w).
Proof.
  intros Hnode.
  assert (node = _Browser_fakeNode) as ->.
  { destruct Hnode as [[-> Hg]|[-> Hg]];
      unfold _Browser_doc, _Browser_window; by rewrite Hg. }
  split; [done|].
  unfold _Browser_on, new_handler. cbn.
  do 2 eexists. split; [reflexivity|]. cbn.
  split; [done|]. split; [done|]. split; [|split; [|split]].
  - intros w2. eexists. by split.
  - intros es. by refine (proj2 (dispatch_all_listeners es _ _ _ _)).
  - intros es w2. by refine (proj2 (dispatch_all_listeners es _ _ _ _)).
  - intros Hl es.
    transitivity (spawned (dispatch_all es w));
      [|by apply dispatch_all_no_listeners].
    by refine (proj2 (dispatch_all_listeners es _ _ _ _)).
Qed.

End EventsFacts.

Section EventsCounterexamples.
Import Js Events.

(** The claim C4 as the specification words it fails where the host
    supports passive listeners and a passive one is asked for: the add call
    passes [{ passive: true }], the remove call passes no third argument,
    so the two calls differ in configuration and in the passive flag. *)
Lemma on_same_configuration_counterexample :
  ∃ kill w1 w2 add remove,
    _Browser_on (Event := nat) true (HostTarget 0) true "scroll" (λ e, e) init
    = Normal kill w1
    ∧ kill w1 = Normal () w2
    ∧ calls w2 = [add; remove]
    ∧ ¬ (call_args add = call_args remove)
    ∧ ¬ (passive_of (call_args add).2 = passive_of (call_args remove).2).
Proof.
  do 5 eexists. split; [reflexivity|]. split; [reflexivity|].
  split; [reflexivity|]. split; discriminate.
Qed.

End EventsCounterexamples.

Lemma on_teardown_removes_added_listener_witness :
  Events.HostTarget 7 ≠ Events.NoObject
  ∧ Events.well_formed (Events.init (Event := nat) (Task := nat))
  ∧ ∃ kill w1,
      Events._Browser_on true (Events.HostTarget 7) true "keydown" (λ e : nat, e)
        Events.init
      = Js.Normal kill w1
      ∧ Events.calls (Js.state_of (kill w1))
        = [Events.AddEventListener (Events.HostTarget 7) "keydown" 0
             (Events.JsPassive true);
           Events.RemoveEventListener (Events.HostTarget 7) "keydown" 0
             Events.JsUndefined]
      ∧ Events.listeners (Js.state_of (kill w1)) = [].
Proof.
  assert (Hnode : Events.HostTarget 7 ≠ Events.NoObject) by discriminate.
  assert (Hwf : Events.well_formed (Events.init (Event := nat) (Task := nat)))
    by constructor.
  split; [exact Hnode|]. split; [exact Hwf|].
  destruct (on_teardown_removes_added_listener true (Events.HostTarget 7) true
              "keydown" (λ e : nat, e) Events.init Hnode)
    as (kill & w1 & Hon & Hadd & _ & Hkill & Hhost).
  exists kill, w1. split; [exact Hon|]. split.
  - destruct (Hkill w1) as (w3 & -> & Hremove & _). cbn.
    rewrite Hremove, Hadd. reflexivity.
  - exact (proj2 (Hhost 7 eq_refl Hwf)).
Defined.

Lemma fakeNode_subscription_is_inert_witness :
  let g := Events.mkGlobals None None in
  Events.g_document g = None
  ∧ Events._Browser_doc g = Events._Browser_fakeNode
  ∧ ∃ kill w1,
      Events._Browser_on true (Events._Browser_doc g) false "visibilitychange"
        (λ e : nat, e) Events.init
      = Js.Normal kill w1
      ∧ Events.spawned
          (Events.dispatch_all [(0, "visibilitychange", 1); (0, "click", 2)] w1)
        = [].
Proof.
  intros g. split; [reflexivity|].
  destruct (fakeNode_subscription_is_inert true g (Events._Browser_doc g) false
              "visibilitychange" (λ e : nat, e) Events.init
              (or_introl (conj eq_refl eq_refl)))
    as (Hfake & kill & w1 & Hon & _ & _ & _ & _ & _ & Hquiet).
  split; [exact Hfake|].
  exists kill, w1. split; [exact Hon|].
  exact (Hquiet eq_refl _).
Defined.

(** ** Event decoding *)

Section DecodeFacts.
Import Events.
Context {Event Msg X : Type}.
Implicit Types (decoder : Decoder (Event := Event) (Msg := Msg) (X := X)).

(** C7: a successful decode yields [Just] the message, a failing one
    [Nothing]; [event.preventDefault()] is called exactly when the decode
    succeeds with its flag set, and so never on a failing decode. *)
Theorem decodeEvent_outcome decoder (event : Event) (prevented : list Event) :
  (∀ msg flag, decoder event = Ok (msg, flag) →
     _Browser_decodeEvent decoder event prevented
     = (Just msg, if flag then preventDefault event prevented else prevented))
  ∧ (∀ x, decoder event = Err x →
       _Browser_decodeEvent decoder event prevented = (Nothing, prevented))
  ∧ ((_Browser_decodeEvent decoder event prevented).2
       = preventDefault event prevented
     ↔ ∃ msg, decoder event = Ok (msg, true))
  ∧ ((_Browser_decodeEvent decoder event prevented).2 = prevented
     ↔ ¬ ∃ msg, decoder event = Ok (msg, true)).
Proof.
  assert (Hne : preventDefault event prevented ≠ prevented).
  { unfold preventDefault. intros H. apply (f_equal length) in H.
    rewrite length_app in H. cbn in H. lia. }
  unfold _Browser_decodeEvent, runHelp.
  destruct (decoder event) as [[msg [|]]|x]; cbn;
    (split; [|split; [|split; split]]).
  - by intros ?? [= <- <-].
  - by intros ? [=].
  - intros _. by exists msg.
  - done.
  - intros H. by destruct Hne.
  - intros H. destruct H. by exists msg.
  - by intros ?? [= <- <-].
  - by intros ? [=].
  - intros H. symmetry in H. by destruct Hne.
  - by intros [? [=]].
  - by intros _ [? [=]].
  - done.
  - by intros ?? [=].
  - done.
  - intros H. symmetry in H. by destruct Hne.
  - by intros [? [=]].
  - by intros _ [? [=]].
  - done.
Qed.

End DecodeFacts.

Lemma decodeEvent_outcome_witness :
  let decoder : Events.Decoder (Event := nat) (Msg := nat) (X := string) :=
    λ event, if Nat.even event then Events.Ok (event + 1, true)
             else Events.Err "odd" in
  decoder 4 = Events.Ok (5, true)
  ∧ Events._Browser_decodeEvent decoder 4 [] = (Events.Just 5, [4])
  ∧ decoder 3 = Events.Err "odd"
  ∧ Events._Browser_decodeEvent decoder 3 [] = (Events.Nothing, []).
Proof.
  intros decoder. split; [reflexivity|]. split.
  - exact (proj1 (decodeEvent_outcome decoder 4 []) 5 true eq_refl).
  - split; [reflexivity|].
    exact (proj1 (proj2 (decodeEvent_outcome decoder 3 [])) "odd" eq_refl).
Defined.

(** ** Document mode *)

Section DocumentFacts.
Import Document.
Context {Model Body VNode DomNode Patches : Type}.
Variable view : Model → Doc Body.
Variable virtualize : DomNode → VNode.
Variable body_node : Body → VNode.
Variable diff : VNode → VNode → Patches.
Variable applyPatches : DomNode → VNode → Patches → DomNode.

#[local] Abbreviation draw := (draw view body_node diff applyPatches).
#[local] Abbreviation draws := (draws view virtualize body_node diff applyPatches).
Implicit Types (s : Closure VNode DomNode * Host DomNode Patches).

(** The closure's [title] is the title most recently written. *)
Lemma draw_keeps_title t0 m s :
  title s.1 = last_written t0 s.2 →
  title (draw m s).1 = last_written t0 (draw m s).2.
Proof.
  destruct s as [c h]. unfold Document.draw, last_written. cbn.
  case_decide; cbn; [|done].
  intros _. by rewrite last_snoc.
Qed.

Lemma draws_keep_title t0 b0 ms :
  title (draws ms (fresh_host t0 b0)).1
  = last_written t0 (draws ms (fresh_host t0 b0)).2.
Proof.
  unfold Document.draws.
  induction ms as [|m ms IH] using rev_ind; [done|].
  rewrite fold_left_app. cbn. by apply draw_keeps_title.
Qed.

(** C9: at every draw of a program started on a document titled [t0], the
    body is patched; the document's title is assigned when, and only
    when, the rendered title differs from the one most recently written
    (from [t0] before any write). *)
Theorem document_title_written_on_change t0 b0 ms m :
  let s := draws ms (fresh_host t0 b0) in
  let s' := draw m s in
  let patches := diff (currNode s.1) (body_node (doc_body (view m))) in
  patches_applied s'.2 = patches_applied s.2 ++ [patches]
  ∧ host_body s'.2 = applyPatches (bodyNode s.1) (currNode s.1) patches
  ∧ (doc_title (view m) = last_written t0 s.2 →
       title_writes s'.2 = title_writes s.2
       ∧ host_title s'.2 = host_title s.2)
  ∧ (doc_title (view m) ≠ last_written t0 s.2 →
       title_writes s'.2 = title_writes s.2 ++ [doc_title (view m)]
       ∧ host_title s'.2 = doc_title (view m)).
Proof.
  intros s s' patches. subst s'.
  pose proof (draws_keep_title t0 b0 ms) as Ht. fold s in Ht.
  clearbody s. destruct s as [c h]. cbn in Ht. subst patches.
  unfold Document.draw. cbn.
  case_decide as Hc; cbn; (split; [done|]); (split; [done|]); split;
    try done; intros; congruence.
Qed.

End DocumentFacts.

Lemma document_title_written_on_change_witness :
  let view := λ m : string * nat, Document.mkDoc m.1 m.2 in
  let draw := Document.draw view id pair (λ _ _ (p : nat * nat), p.2) in
  let s := Document.draws view id id pair (λ _ _ (p : nat * nat), p.2)
             [("Home", 1)] (Document.fresh_host "Home" 0) in
  Document.doc_title (view ("Home", 2)) = Document.last_written "Home" s.2
  ∧ Document.title_writes (draw ("Home", 2) s).2 = []
  ∧ Document.patches_applied (draw ("Home", 2) s).2 = [(0, 1); (1, 2)]
  ∧ Document.doc_title (view ("About", 3)) ≠ Document.last_written "Home" s.2
  ∧ Document.title_writes (draw ("About", 3) s).2 = ["About"].
Proof.
  intros view draw s.
  pose proof (document_title_written_on_change view id id pair
                (λ _ _ (p : nat * nat), p.2) "Home" 0 [("Home", 1)]) as H.
  assert (Hsame : Document.doc_title (view ("Home", 2))
                  = Document.last_written "Home" s.2) by reflexivity.
  assert (Hdiff : Document.doc_title (view ("About", 3))
                  ≠ Document.last_written "Home" s.2) by discriminate.
  split; [exact Hsame|]. split.
  - exact (proj1 (proj1 (proj2 (proj2 (H ("Home", 2)))) Hsame)).
  - split; [exact (proj1 (H ("Home", 2)))|].
    split; [exact Hdiff|].
    exact (proj1 (proj2 (proj2 (proj2 (H ("About", 3)))) Hdiff)).
Defined.

(** * Further properties *)

(** ** The render coalescer, over whole runs *)

Section AnimatorRunFacts.
Import Animator AnimatorRuns.
Context {Model : Type}.
Implicit Types (a : Animator Model) (m : Model) (t : list (HostCall Model)).

#[local] Arguments on_screen {_} _ : simpl never.

Lemma run_app (es1 es2 : list (Event Model)) : ∀ a,
  run (es1 ++ es2) a = run es1 a ≫= run es2.
Proof.
  induction es1 as [|e es1 IH]; intros a; [done|].
  cbn. destruct (step a e) as [a1|]; [apply IH|done].
Qed.

Lemma on_screen_draw t m : on_screen (t ++ [Draw m]) = Some m.
Proof. unfold on_screen, drawn. rewrite omap_app. cbn. apply last_snoc. Qed.

Lemma on_screen_request t : on_screen (t ++ [RequestFrame]) = on_screen t.
Proof. unfold on_screen, drawn. rewrite omap_app. cbn. by rewrite app_nil_r. Qed.

Lemma on_screen_fire t : on_screen (t ++ [Fire]) = on_screen t.
Proof. unfold on_screen, drawn. rewrite omap_app. cbn. by rewrite app_nil_r. Qed.

Lemma shown_make m : shown (_Browser_makeAnimator m).
Proof. intros _. cbn. apply (on_screen_draw []). Qed.

Lemma shown_notify m isSync a : shown a → shown (notify m isSync a).
Proof.
  unfold shown, notify. intros Ha.
  destruct isSync; cbn.
  - case_decide; cbn; intros _; apply on_screen_draw.
  - done.
Qed.

Lemma shown_fire a a' : shown a → fire a = Some a' → shown a'.
Proof.
  unfold shown, fire. intros Ha.
  destruct (queued a) as [|n]; [done|]. intros [= <-].
  unfold updateIfNeeded. cbn.
  case_decide as Hs; cbn; intros _.
  - rewrite on_screen_fire. apply Ha. congruence.
  - apply on_screen_draw.
Qed.

Lemma shown_run es : ∀ a a', shown a → run es a = Some a' → shown a'.
Proof.
  induction es as [|e es IH]; intros a a' Ha; cbn.
  - by intros [= <-].
  - destruct e as [m isSync|]; cbn.
    + apply IH. by apply shown_notify.
    + destruct (fire a) as [a1|] eqn:Hf; [|done].
      apply IH. by eapply shown_fire.
Qed.

Lemma notify_all_pending ms : ∀ a,
  state a = PENDING_REQUEST →
  run (notify_all ms) a = Some (set_model (default (model a) (last ms)) a).
Proof.
  induction ms as [|m ms IH]; intros a Hs; cbn.
  - by destruct a.
  - rewrite IH.
    + f_equal. unfold notify, set_model, set_state. cbn.
      case_decide; [congruence|]. cbn. rewrite Hs, last_cons.
      by destruct (last ms).
    + done.
Qed.

(** X1: any number of asynchronous notifications on an idle animator,
    followed by one frame, make one frame request and one draw, of the
    model notified last; the frame then leaves one request for the frame
    after it. *)
Theorem notify_async_coalesced ms m a :
  state a = NO_REQUEST →
  last ms = Some m →
  run (notify_all ms ++ [Frame]) a
  = Some (mkAnimator m EXTRA_REQUEST (S (queued a))
            (trace a ++ [RequestFrame; Fire; RequestFrame; Draw m])).
Proof.
  intros Hs Hlast. destruct ms as [|m1 ms]; [done|].
  rewrite run_app. cbn [notify_all map run step].
  change (map (λ m0, Notify m0 false) ms) with (notify_all ms).
  rewrite notify_all_pending by done.
  assert (default m1 (last ms) = m) as Hm.
  { rewrite last_cons in Hlast. destruct (last ms); cbn; congruence. }
  unfold notify. cbn. case_decide; [|congruence]. cbn.
  rewrite Hm. unfold updateIfNeeded. cbn. case_decide; [done|].
  unfold set_state, draw, _Browser_requestAnimationFrame. cbn.
  by rewrite <- !app_assoc.
Qed.

Lemma run_model es : ∀ a a', run es a = Some a' → model a' = latest es (model a).
Proof.
  induction es as [|e es IH]; intros a a'; cbn.
  - by intros [= <-].
  - destruct e as [m isSync|]; cbn.
    + intros Hrun. rewrite (IH _ _ Hrun). f_equal.
      unfold notify. destruct isSync; cbn; by case_decide.
    + unfold fire. destruct (queued a) as [|n]; [done|].
      intros Hrun. rewrite (IH _ _ Hrun). f_equal.
      unfold updateIfNeeded. by case_decide.
Qed.

(** X2: the stored model is always the model notified last, and between
    any two events an animator that is not in state [PENDING_REQUEST] has
    that model on screen. *)
Theorem screen_shows_latest_model m0 (es : list (Event Model)) a :
  run es (_Browser_makeAnimator m0) = Some a →
  model a = latest es m0
  ∧ (state a ≠ PENDING_REQUEST → on_screen (trace a) = Some (latest es m0)).
Proof.
  intros Hrun. pose proof (run_model es _ _ Hrun) as Hm. cbn in Hm.
  split; [exact Hm|]. intros Hs. rewrite <- Hm.
  exact (shown_run es _ _ (shown_make m0) Hrun Hs).
Qed.

(** X3: from any state an animator can be in, at most two frames bring it
    to rest: no request outstanding, state [NO_REQUEST], no frame left to
    fire, and the model notified last on screen. *)
Theorem frames_drain m0 (es : list (Event Model)) a :
  run es (_Browser_makeAnimator m0) = Some a →
  ∃ n a',
    n ≤ 2
    ∧ run (replicate n Frame) a = Some a'
    ∧ state a' = NO_REQUEST
    ∧ queued a' = 0
    ∧ fire a' = None
    ∧ model a' = model a
    ∧ on_screen (trace a') = Some (model a).
Proof.
  intros Hrun.
  pose proof (coalesced_run es _ _ (coalesced_make m0) Hrun) as [_ _ Hi Hn].
  pose proof (shown_run es _ _ (shown_make m0) Hrun) as Hshown.
  unfold shown in Hshown.
  destruct (state a) eqn:Hs.
  - exists 0, a. specialize (Hi eq_refl).
    repeat split; try done; try lia.
    + unfold fire. by rewrite Hi.
    + apply Hshown. congruence.
  - assert (Hq : queued a = 1) by (apply Hn; congruence).
    exists 2, (mkAnimator (model a) NO_REQUEST 0
                 (trace a ++ [Fire; RequestFrame; Draw (model a); Fire])).
    split; [lia|]. split.
    + cbn. unfold fire at 1. rewrite Hq.
      unfold updateIfNeeded at 1. cbn. rewrite Hs.
      case_decide; [congruence|].
      unfold fire, updateIfNeeded. cbn. case_decide; [|congruence].
      unfold set_state. cbn. by rewrite <- !app_assoc.
    + do 4 (split; [done|]). cbn.
      change (trace a ++ [Fire; RequestFrame; Draw (model a); Fire])
        with (trace a ++ [Fire; RequestFrame; Draw (model a)] ++ [Fire]).
      rewrite app_assoc, on_screen_fire.
      change [Fire; RequestFrame; Draw (model a)]
        with ([Fire; RequestFrame] ++ [Draw (model a)]).
      by rewrite app_assoc, on_screen_draw.
  - assert (Hq : queued a = 1) by (apply Hn; congruence).
    exists 1, (mkAnimator (model a) NO_REQUEST 0 (trace a ++ [Fire])).
    split; [lia|]. split.
    + cbn. unfold fire. rewrite Hq.
      unfold updateIfNeeded. cbn. rewrite Hs.
      by case_decide.
    + do 4 (split; [done|]). cbn.
      rewrite on_screen_fire. apply Hshown. congruence.
Qed.

(** X4: a synchronous notification while a request is pending draws at
    once, and the frame that was requested then draws nothing and requests
    nothing: the model is drawn once, and the animator is at rest. *)
Theorem notify_sync_idles_pending_frame m0 (es : list (Event Model)) a m :
  run es (_Browser_makeAnimator m0) = Some a →
  state a = PENDING_REQUEST →
  run [Notify m true; Frame] a
  = Some (mkAnimator m NO_REQUEST 0 (trace a ++ [Draw m; Fire])).
Proof.
  intros Hrun Hs.
  pose proof (coalesced_run es _ _ (coalesced_make m0) Hrun) as [_ _ _ Hn].
  assert (Hq : queued a = 1) by (apply Hn; congruence).
  cbn. unfold notify. cbn. rewrite Hs. case_decide; [|congruence].
  unfold fire. cbn. rewrite Hq. unfold updateIfNeeded. cbn.
  case_decide; [|congruence].
  unfold set_state. cbn. by rewrite <- app_assoc.
Qed.

End AnimatorRunFacts.

Lemma notify_async_coalesced_witness :
  Animator.run (AnimatorRuns.notify_all [1; 2; 3] ++ [Animator.Frame])
    (Animator._Browser_makeAnimator 0)
  = Some (Animator.mkAnimator 3 Animator.EXTRA_REQUEST 1
            [Animator.Draw 0; Animator.RequestFrame; Animator.Fire;
             Animator.RequestFrame; Animator.Draw 3]).
Proof.
  exact (notify_async_coalesced [1; 2; 3] 3 (Animator._Browser_makeAnimator 0)
           eq_refl eq_refl).
Defined.

Lemma screen_shows_latest_model_witness :
  ∃ a : Animator.Animator nat,
    Animator.run [Animator.Notify 1 false; Animator.Frame; Animator.Notify 2 true]
      (Animator._Browser_makeAnimator 0) = Some a
    ∧ Animator.state a ≠ Animator.PENDING_REQUEST
    ∧ AnimatorRuns.on_screen (Animator.trace a) = Some 2.
Proof.
  eexists. split; [reflexivity|]. split; [discriminate|].
  refine (proj2 (screen_shows_latest_model 0
    [Animator.Notify 1 false; Animator.Frame; Animator.Notify 2 true]
    _ eq_refl) _).
  discriminate.
Defined.

Lemma frames_drain_witness :
  ∃ (a : Animator.Animator nat) n a',
    Animator.run [Animator.Notify 1 false; Animator.Notify 2 false]
      (Animator._Browser_makeAnimator 0) = Some a
    ∧ n ≤ 2
    ∧ Animator.run (replicate n Animator.Frame) a = Some a'
    ∧ Animator.state a' = Animator.NO_REQUEST
    ∧ AnimatorRuns.on_screen (Animator.trace a') = Some (Animator.model a).
Proof.
  eexists.
  destruct (frames_drain 0 [Animator.Notify 1 false; Animator.Notify 2 false]
              _ eq_refl)
    as (n & a' & Hn & Hrun & Hstate & _ & _ & _ & Hscreen).
  exists n, a'. split; [reflexivity|]. by repeat split.
Defined.

Lemma notify_sync_idles_pending_frame_witness :
  ∃ a : Animator.Animator nat,
    Animator.run [Animator.Notify 1 false] (Animator._Browser_makeAnimator 0)
    = Some a
    ∧ Animator.state a = Animator.PENDING_REQUEST
    ∧ Animator.run [Animator.Notify 2 true; Animator.Frame] a
      = Some (Animator.mkAnimator 2 Animator.NO_REQUEST 0
                [Animator.Draw 0; Animator.RequestFrame;
                 Animator.Draw 2; Animator.Fire]).
Proof.
  eexists. split; [reflexivity|]. split; [reflexivity|].
  exact (notify_sync_idles_pending_frame 0 [Animator.Notify 1 false] _ 2
           eq_refl eq_refl).
Defined.

(** ** Fake navigation *)

Section HistoryFacts.
Import Js Scheduler History.
Context {X : Type}.
Variable resolve : string → string → string.
Variable refused : string → string → bool.
Implicit Types (h : Host X).

(** X5: [_Browser_go(n)] always resolves, once, with the unit value; it
    calls [history.go] when [n] is not zero and leaves the history object
    alone when [n] is zero (where the host's [go] would reload the page). *)
Theorem go_skips_zero (n : Z) h :
  ∃ h',
    _Browser_go n resume h = Normal () h'
    ∧ resolved h' = resolved h ++ [succeed Tuple0]
    ∧ href h' = href h
    ∧ (n = 0%Z → calls h' = calls h)
    ∧ (n ≠ 0%Z → calls h' = calls h ++ [HistoryGo n]).
Proof.
  unfold _Browser_go. eexists. split; [reflexivity|].
  case_decide; cbn; repeat split; congruence.
Qed.

(** X6: [_Browser_pushState] and [_Browser_replaceState] resolve with the
    location read back from the host after the call, which is what
    [_Browser_getUrl] then returns, and not with the string they were
    given; when the host refuses the URL its exception leaves the binding,
    nothing is resolved and the location stays. *)
Theorem pushState_resolves_with_location url h :
  (refused (href h) url = false →
     ∃ h1 h2,
       _Browser_pushState resolve refused url resume h = Normal () h1
       ∧ resolved h1 = resolved h ++ [succeed (Url (_Browser_getUrl h1))]
       ∧ _Browser_getUrl h1 = resolve (href h) url
       ∧ calls h1 = calls h ++ [HistoryPushState url]
       ∧ _Browser_replaceState resolve refused url resume h = Normal () h2
       ∧ resolved h2 = resolved h ++ [succeed (Url (_Browser_getUrl h2))]
       ∧ _Browser_getUrl h2 = resolve (href h) url
       ∧ calls h2 = calls h ++ [HistoryReplaceState url])
  ∧ (refused (href h) url = true →
     ∃ err1 err2 h1 h2,
       _Browser_pushState resolve refused url resume h = Throw err1 h1
       ∧ resolved h1 = resolved h ∧ _Browser_getUrl h1 = _Browser_getUrl h
       ∧ _Browser_replaceState resolve refused url resume h = Throw err2 h2
       ∧ resolved h2 = resolved h ∧ _Browser_getUrl h2 = _Browser_getUrl h).
Proof.
  unfold _Browser_pushState, _Browser_replaceState,
    history_pushState, history_replaceState.
  split; intros ->.
  - do 2 eexists. by repeat split.
  - do 4 eexists. by repeat split.
Qed.

End HistoryFacts.

Lemma go_skips_zero_witness :
  let h := History.mkHost (X := Empty_set) "https://example.org/a" [] [] in
  ∃ h0 h1,
    History._Browser_go 0 History.resume h = Js.Normal () h0
    ∧ History.calls h0 = []
    ∧ History._Browser_go (-1) History.resume h = Js.Normal () h1
    ∧ History.calls h1 = [History.HistoryGo (-1)].
Proof.
  intros h.
  destruct (go_skips_zero 0 h) as (h0 & Hgo0 & _ & _ & Hzero & _).
  destruct (go_skips_zero (-1) h) as (h1 & Hgo1 & _ & _ & _ & Hback).
  exists h0, h1. split; [exact Hgo0|]. split; [exact (Hzero eq_refl)|].
  split; [exact Hgo1|]. apply Hback. discriminate.
Defined.

Lemma pushState_resolves_with_location_witness :
  let resolve := λ base url : string, ("https://example.org" +:+ url)%string in
  let refused := λ base url : string, String.prefix "http" url in
  let h := History.mkHost (X := Empty_set) "https://example.org/a" [] [] in
  refused (History.href h) "/b" = false
  ∧ refused (History.href h) "http://other.example/" = true
  ∧ (∃ h1,
       History._Browser_pushState resolve refused "/b" History.resume h
       = Js.Normal () h1
       ∧ History.resolved h1
         = [Scheduler.succeed (History.Url "https://example.org/b")])
  ∧ (∃ err h1,
       History._Browser_pushState resolve refused "http://other.example/"
         History.resume h
       = Js.Throw err h1
       ∧ History.resolved h1 = []).
Proof.
  intros resolve refused h.
  destruct (pushState_resolves_with_location resolve refused "/b" h)
    as [Hok _].
  destruct (pushState_resolves_with_location resolve refused
              "http://other.example/" h) as [_ Hrefused].
  split; [reflexivity|]. split; [reflexivity|]. split.
  - destruct (Hok eq_refl) as (h1 & _ & Hpush & Hres & Hurl & _).
    exists h1. split; [exact Hpush|]. rewrite Hres, Hurl. reflexivity.
  - destruct (Hrefused eq_refl) as (err & _ & h1 & _ & Hpush & Hres & _).
    exists err, h1. by split.
Defined.

(** ** Detecting Internet Explorer 11 *)

Section UserAgentFacts.
Import UserAgent.

Lemma prefix_append (s1 : string) : ∀ s2,
  String.prefix s1 s2 = true ↔ ∃ post, s2 = String.append s1 post.
Proof.
  induction s1 as [|c s1 IH]; intros s2.
  - split; [intros _; by exists s2|intros _; by destruct s2].
  - destruct s2 as [|c2 s2].
    + change (String.prefix (String c s1) "") with false.
      split; [done|by intros [? ?]].
    + change (String.prefix (String c s1) (String c2 s2))
        with (if Ascii.ascii_dec c c2 then String.prefix s1 s2 else false).
      destruct (Ascii.ascii_dec c c2) as [->|Hne].
      * rewrite IH. split; intros [post Hpost]; exists post.
        -- change (String.append (String c2 s1) post)
             with (String c2 (String.append s1 post)). congruence.
        -- change (String.append (String c2 s1) post)
             with (String c2 (String.append s1 post)) in Hpost. congruence.
      * split; [done|]. intros [post Hpost].
        change (String.append (String c s1) post)
          with (String c (String.append s1 post)) in Hpost. congruence.
Qed.

Lemma index_occurs (needle : string) : ∀ s,
  String.index 0 needle s ≠ None
  ↔ ∃ pre post, s = String.append pre (String.append needle post).
Proof.
  induction s as [|c s IH].
  - destruct needle as [|c needle].
    + change (String.index 0 "" "") with (Some 0).
      split; [|done]. intros _. by exists ""%string, ""%string.
    + change (String.index 0 (String c needle) "") with (@None nat).
      split; [done|]. intros (pre & post & H). by destruct pre.
  - change (String.index 0 needle (String c s))
      with (if String.prefix needle (String c s) then Some 0
            else match String.index 0 needle s with
                 | Some n => Some (S n)
                 | None => None
                 end).
    destruct (String.prefix needle (String c s)) eqn:Hp.
    + split; [intros _|done].
      apply prefix_append in Hp as [post Hpost]. by exists ""%string, post.
    + split.
      * intros H. destruct (String.index 0 needle s) eqn:Hi; [|done].
        destruct (proj1 IH ltac:(done)) as (pre & post & ->).
        by exists (String c pre), post.
      * intros (pre & post & H). destruct pre as [|c' pre].
        -- assert (String.prefix needle (String c s) = true)
             by (apply prefix_append; by exists post).
           congruence.
        -- change (String.append (String c' pre) (String.append needle post))
             with (String c' (String.append pre (String.append needle post))) in H.
           injection H as -> ->.
           destruct (String.index 0 needle _) eqn:Hi; [done|].
           exfalso. apply (proj2 IH); [by exists pre, post|done].
Qed.

(** X7: [_Browser_isInternetExplorer11] answers true exactly when the
    user agent string has ['Trident'] somewhere in it. *)
Theorem isInternetExplorer11_iff_Trident (userAgent : string) :
  _Browser_isInternetExplorer11 userAgent = true
  ↔ ∃ pre post, userAgent = String.append pre (String.append "Trident" post).
Proof.
  rewrite <- index_occurs.
  unfold _Browser_isInternetExplorer11, indexOf.
  destruct (String.index 0 "Trident" userAgent) as [i|]; cbn.
  - split; [done|]. intros _. apply negb_true_iff, Z.eqb_neq. lia.
  - split; [done|]. by intros [].
Qed.

End UserAgentFacts.

(** ** Element and document mode, over whole runs *)

Section ElementFacts.
Import Element.
Context {Model VNode DomNode Patches : Type}.
Variable view : Model → VNode.
Variable virtualize : DomNode → VNode.
Variable diff : VNode → VNode → Patches.
Variable applyPatches : DomNode → VNode → Patches → DomNode.

Lemma element_draws_from (ms : list Model) : ∀ c : Closure VNode DomNode Patches,
  let c' := fold_left (fun c m => draw view diff applyPatches m c) ms c in
  currNode c' = default (currNode c) (last (map view ms))
  ∧ patches_applied c'
    = patches_applied c ++ zip_with diff (currNode c :: map view ms) (map view ms).
Proof.
  induction ms as [|m ms IH]; intros c; cbn.
  - by rewrite app_nil_r.
  - destruct (IH (draw view diff applyPatches m c)) as [Hcurr Hpatches].
    rewrite Hcurr, Hpatches. cbn. rewrite last_cons, <- app_assoc.
    split; [by destruct (last (map view ms))|done].
Qed.

(** X8: in element mode every draw diffs the new view against the view
    drawn before it, the first against the virtualized node; after the
    draws the current virtual node is the view of the last model. *)
Theorem element_diffs_against_previous_view (node : DomNode) (ms : list Model) :
  currNode (draws view virtualize diff applyPatches ms node)
  = default (virtualize node) (last (map view ms))
  ∧ patches_applied (draws view virtualize diff applyPatches ms node)
    = zip_with diff (virtualize node :: map view ms) (map view ms).
Proof.
  exact (element_draws_from ms (startup virtualize node)).
Qed.

End ElementFacts.

Section DocumentRunFacts.
Import Document DocumentRuns.
Context {Model Body VNode DomNode Patches : Type}.
Variable view : Model → Doc Body.
Variable virtualize : DomNode → VNode.
Variable body_node : Body → VNode.
Variable diff : VNode → VNode → Patches.
Variable applyPatches : DomNode → VNode → Patches → DomNode.

#[local] Abbreviation draw1 := (Document.draw view body_node diff applyPatches).
#[local] Abbreviation drawn_on :=
  (Document.draws view virtualize body_node diff applyPatches).
#[local] Abbreviation rendered := (map (λ m, body_node (doc_body (view m)))).
Implicit Types (s : Closure VNode DomNode * Host DomNode Patches).

Lemma draws_snoc ms m h0 : drawn_on (ms ++ [m]) h0 = draw1 m (drawn_on ms h0).
Proof. unfold Document.draws. by rewrite fold_left_app. Qed.

Lemma document_draws_from (ms : list Model) : ∀ s,
  let s' := fold_left (fun s m => draw1 m s) ms s in
  currNode s'.1 = default (currNode s.1) (last (rendered ms))
  ∧ patches_applied s'.2
    = patches_applied s.2 ++ zip_with diff (currNode s.1 :: rendered ms) (rendered ms).
Proof.
  induction ms as [|m ms IH]; intros s; cbn.
  - by rewrite app_nil_r.
  - destruct (IH (draw1 m s)) as [Hcurr Hpatches].
    rewrite Hcurr, Hpatches. destruct s as [c h].
    unfold Document.draw. cbn. rewrite last_cons.
    case_decide; cbn; rewrite <- app_assoc;
      (split; [by destruct (last (rendered ms))|done]).
Qed.

(** X9: in document mode every draw diffs the new body against the body
    drawn before it, the first against the virtualized body of the host
    document, whether or not the title changes. *)
Theorem document_diffs_against_previous_body t0 b0 (ms : list Model) :
  currNode (drawn_on ms (fresh_host t0 b0)).1
  = default (virtualize b0) (last (rendered ms))
  ∧ patches_applied (drawn_on ms (fresh_host t0 b0)).2
    = zip_with diff (virtualize b0 :: rendered ms) (rendered ms).
Proof.
  exact (document_draws_from ms (startup virtualize (fresh_host t0 b0), fresh_host t0 b0)).
Qed.

(** The closure's [title] is the host document's title. *)
Lemma draws_title_sync t0 b0 ms :
  title (drawn_on ms (fresh_host t0 b0)).1
  = host_title (drawn_on ms (fresh_host t0 b0)).2.
Proof.
  induction ms as [|m ms IH] using rev_ind; [done|].
  rewrite draws_snoc. destruct (drawn_on ms _) as [c h]. cbn in IH.
  unfold Document.draw. cbn. by case_decide.
Qed.

Lemma draws_title_last t0 b0 ms m :
  last ms = Some m →
  host_title (drawn_on ms (fresh_host t0 b0)).2 = doc_title (view m).
Proof.
  intros Hlast. apply last_Some in Hlast as [ms' ->].
  rewrite draws_snoc.
  pose proof (draws_title_sync t0 b0 ms') as Hsync.
  destruct (drawn_on ms' _) as [c h]. cbn in Hsync.
  unfold Document.draw. cbn.
  case_decide as Hc; cbn; [done|]. congruence.
Qed.

(** X10: after any draws the host document's title is the title of the
    last view drawn. *)
Theorem document_title_is_last_rendered t0 b0 (ms : list Model) m :
  last ms = Some m →
  host_title (drawn_on ms (fresh_host t0 b0)).2 = doc_title (view m).
Proof. apply draws_title_last. Qed.

Lemma changes_only_snoc ws : ∀ prev w,
  changes_only prev (ws ++ [w])
  ↔ changes_only prev ws ∧ default prev (last ws) ≠ w.
Proof.
  induction ws as [|w1 ws IH]; intros prev w; cbn.
  - tauto.
  - rewrite IH, last_cons. destruct (last ws); cbn; tauto.
Qed.

(** X11: the titles assigned to the host document never repeat: each one
    differs from the one assigned before it, and the first from the title
    the document had at startup. *)
Theorem document_title_writes_change t0 b0 (ms : list Model) :
  changes_only t0 (title_writes (drawn_on ms (fresh_host t0 b0)).2).
Proof.
  induction ms as [|m ms IH] using rev_ind; [done|].
  rewrite draws_snoc.
  pose proof (draws_keep_title view virtualize body_node diff applyPatches
                t0 b0 ms) as Ht.
  destruct (drawn_on ms _) as [c h]. cbn in IH, Ht.
  unfold Document.draw. cbn. case_decide as Hc; cbn; [|done].
  apply changes_only_snoc. split; [done|].
  unfold last_written in Ht. congruence.
Qed.

End DocumentRunFacts.

Lemma document_title_is_last_rendered_witness :
  let view := λ m : string * nat, Document.mkDoc m.1 m.2 in
  last [("Home", 1); ("About", 2); ("About", 3)] = Some ("About", 3)
  ∧ Document.host_title
      (Document.draws view id id pair (λ _ _ (p : nat * nat), p.2)
         [("Home", 1); ("About", 2); ("About", 3)]
         (Document.fresh_host "Start" 0)).2
    = "About".
Proof.
  intros view. split; [reflexivity|].
  exact (document_title_is_last_rendered view id id pair
           (λ _ _ (p : nat * nat), p.2) "Start" 0
           [("Home", 1); ("About", 2); ("About", 3)] ("About", 3) eq_refl).
Defined.

(** ** The animator drawing a document *)

Section AnimatedDocumentFacts.
Import Animator AnimatorRuns Document.
Context {Model Body VNode DomNode Patches : Type}.
Variable view : Model → Doc Body.
Variable virtualize : DomNode → VNode.
Variable body_node : Body → VNode.
Variable diff : VNode → VNode → Patches.
Variable applyPatches : DomNode → VNode → Patches → DomNode.

(** X12: with the document draw function as the animator's [draw],
    whenever the animator is not in state [PENDING_REQUEST] the host
    document's title is the title of the view of the model notified
    last. *)
Theorem document_title_follows_model t0 b0 m0 (es : list (Event Model)) a :
  run es (_Browser_makeAnimator m0) = Some a →
  state a ≠ PENDING_REQUEST →
  host_title
    (Document.draws view virtualize body_node diff applyPatches
       (drawn (trace a)) (fresh_host t0 b0)).2
  = doc_title (view (model a)).
Proof.
  intros Hrun Hs. apply draws_title_last.
  exact (shown_run es _ _ (shown_make m0) Hrun Hs).
Qed.

End AnimatedDocumentFacts.

Lemma document_title_follows_model_witness :
  let view := λ m : string * nat, Document.mkDoc m.1 m.2 in
  ∃ a : Animator.Animator (string * nat),
    Animator.run
      [Animator.Notify ("Inbox", 1) false; Animator.Notify ("Inbox (1)", 2) false;
       Animator.Frame]
      (Animator._Browser_makeAnimator ("Loading", 0)) = Some a
    ∧ Animator.state a ≠ Animator.PENDING_REQUEST
    ∧ Document.host_title
        (Document.draws view id id pair (λ _ _ (p : nat * nat), p.2)
           (AnimatorRuns.drawn (Animator.trace a))
           (Document.fresh_host "Start" 0)).2
      = "Inbox (1)".
Proof.
  intros view. eexists. split; [reflexivity|]. split; [discriminate|].
  refine (document_title_follows_model view id id pair
            (λ _ _ (p : nat * nat), p.2) "Start" 0 ("Loading", 0)
            [Animator.Notify ("Inbox", 1) false;
             Animator.Notify ("Inbox (1)", 2) false; Animator.Frame]
            _ eq_refl _).
  discriminate.
Defined.

(** ** DOM queries, composed *)

Section DomRunFacts.
Import Scheduler Dom DomCalls.
Context {Num Node : Type}.
Variable sub : Num → Num → Num.
Variable get_prop : string → Node → Num.
Variable set_prop : string → Num → Node → Node.
Variable invoke : string → Node → Node.

(** X13: [_Browser_getScroll] changes no node: it leaves the document as
    it was and resolves with the node's [scrollLeft] and [scrollTop], or
    with [NotFound] when there is no such node. *)
Theorem getScroll_reads_only id (p : Page Node (Num * Num)) :
  document (exec (_Browser_getScroll get_prop id) p) = document p
  ∧ resolved (exec (_Browser_getScroll get_prop id) p)
    = resolved p
      ++ [match document p !! id with
          | Some node =>
              succeed (get_prop "scrollLeft" node, get_prop "scrollTop" node)
          | None => fail (NotFound id)
          end].
Proof.
  unfold _Browser_getScroll. rewrite exec_withNode.
  destruct (document p !! id) as [node|] eqn:Hid; cbn; [|done].
  split; [|done]. by apply insert_id.
Qed.

(** X14: where the host keeps a written [scrollLeft] as it is and leaves
    [scrollTop] alone, [_Browser_setPositiveScroll] followed by
    [_Browser_getScroll] on the same node reads back the offset written,
    beside the old [scrollTop]. *)
Theorem setPositiveScroll_then_getScroll id offset (p : Page Node ()) node :
  document p !! id = Some node →
  get_prop "scrollLeft" (set_prop "scrollLeft" offset node) = offset →
  get_prop "scrollTop" (set_prop "scrollLeft" offset node)
  = get_prop "scrollTop" node →
  let p1 := exec (_Browser_setPositiveScroll set_prop "scrollLeft" id offset) p in
  resolved p1 = resolved p ++ [succeed ()]
  ∧ resolved (exec (_Browser_getScroll get_prop id) (mkPage (document p1) [] []))
    = [succeed (offset, get_prop "scrollTop" node)].
Proof.
  intros Hid Hleft Htop p1. subst p1.
  unfold _Browser_setPositiveScroll, _Browser_getScroll.
  rewrite !exec_withNode, Hid. cbn.
  rewrite lookup_insert_eq. cbn. by rewrite Hleft, Htop.
Qed.

(** X15: a task started while frame callbacks are waiting runs after all
    of them, on the page they leave. *)
Theorem withNode_runs_after_waiting_frames {A} id (doStuff : Node → Node * A)
    (h : Host Node A) :
  flush (_Browser_withNode id doStuff resume h)
  = exec (_Browser_withNode id doStuff) (flush h).
Proof.
  unfold exec, flush, _Browser_withNode, _Browser_requestAnimationFrame. cbn.
  by rewrite fold_left_app.
Qed.

(** X16: on a page with no node called [id], each of [_Browser_call],
    [_Browser_setPositiveScroll], [_Browser_setNegativeScroll] and
    [_Browser_getScroll] looks [id] up once, fails with [NotFound id] and
    does nothing else: no method is called, no property written. *)
Theorem node_tasks_fail_when_missing id functionName scroll scrollMax offset
    (p : Page Node ()) (q : Page Node (Num * Num)) :
  document p !! id = None →
  document q !! id = None →
  let failed {A} (r : Page Node A) :=
    mkPage (document r) (lookups r ++ [id]) (resolved r ++ [fail (NotFound id)]) in
  exec (_Browser_call invoke functionName id) p = failed p
  ∧ exec (_Browser_setPositiveScroll set_prop scroll id offset) p = failed p
  ∧ exec (_Browser_setNegativeScroll sub get_prop set_prop scroll scrollMax id offset) p
    = failed p
  ∧ exec (_Browser_getScroll get_prop id) q = failed q.
Proof.
  intros Hp Hq failed.
  unfold _Browser_call, _Browser_setPositiveScroll, _Browser_setNegativeScroll,
    _Browser_getScroll.
  rewrite !exec_withNode, Hp, Hq. done.
Qed.

End DomRunFacts.

Lemma setPositiveScroll_then_getScroll_witness :
  let get_prop := λ (p : string) (node : gmap string Z), default 0%Z (node !! p) in
  let set_prop := λ (p : string) (v : Z) (node : gmap string Z), <[p := v]> node in
  let box : gmap string Z := {[ "scrollLeft" := 0%Z; "scrollTop" := 40%Z ]} in
  let p := Dom.mkPage (A := ()) {[ "box" := box ]} [] [] in
  Dom.document p !! "box" = Some box
  ∧ get_prop "scrollLeft" (set_prop "scrollLeft" 25%Z box) = 25%Z
  ∧ Dom.resolved
      (Dom.exec (Dom._Browser_getScroll get_prop "box")
         (Dom.mkPage
            (Dom.document
               (Dom.exec (Dom._Browser_setPositiveScroll set_prop "scrollLeft" "box" 25%Z) p))
            [] []))
    = [Scheduler.succeed (25%Z, 40%Z)].
Proof.
  intros get_prop set_prop box p.
  split; [reflexivity|]. split; [reflexivity|].
  exact (proj2 (setPositiveScroll_then_getScroll get_prop set_prop "box" 25%Z p box
                  eq_refl eq_refl eq_refl)).
Defined.

Lemma node_tasks_fail_when_missing_witness :
  let get_prop := λ (p : string) (node : gmap string Z), default 0%Z (node !! p) in
  let set_prop := λ (p : string) (v : Z) (node : gmap string Z), <[p := v]> node in
  let invoke := λ (f : string) (node : gmap string Z), <[f := 1%Z]> node in
  let p := Dom.mkPage (A := ()) {[ "box" := (∅ : gmap string Z) ]} [] [] in
  Dom.document p !! "gone" = None
  ∧ Dom.exec (DomCalls._Browser_call invoke "focus" "gone") p
    = Dom.mkPage (Dom.document p) ["gone"] [Scheduler.fail (Dom.NotFound "gone")].
Proof.
  intros get_prop set_prop invoke p. split; [reflexivity|].
  exact (proj1 (node_tasks_fail_when_missing Z.sub get_prop set_prop invoke
                  "gone" "focus" "scrollLeft" "scrollWidth" 0%Z p
                  (Dom.mkPage (A := Z * Z) ∅ [] []) eq_refl eq_refl)).
Defined.

(** ** Subscriptions on a host target *)

Section SubscriptionFacts.
Import Js Events.
Context {Event Task : Type}.
Variable passiveSupported : bool.
Implicit Types (w : World Event Task) (ls : list (Listener Event Task)).

Lemma dispatch_all_keeps_listeners es : ∀ w,
  listeners (dispatch_all es w) = listeners w.
Proof.
  induction es as [|[[ref type] event] es IH]; intros w; [done|].
  change (dispatch_all ((ref, type, event) :: es) w)
    with (dispatch_all es (dispatch ref type event w)).
  by rewrite IH.
Qed.

(** What a subscription on a host target leaves, spelled out. *)
Lemma on_host_target ref passive eventName (sendToSelf : Event → Task) w :
  well_formed w →
  let handler := mkHandler (next_fn w) (λ event, rawSpawn (sendToSelf event)) in
  _Browser_on passiveSupported (HostTarget ref) passive eventName sendToSelf w
  = Normal
      (λ w', removeEventListener (HostTarget ref) eventName handler JsUndefined w')
      (mkWorld
         (listeners w
          ++ [mkListener ref eventName handler false
                (passive_of (passive_option passiveSupported passive))])
         (spawned w)
         (calls w ++ [AddEventListener (HostTarget ref) eventName (next_fn w)
                        (passive_option passiveSupported passive)])
         (S (next_fn w))).
Proof.
  intros Hwf handler. unfold _Browser_on, new_handler. cbn.
  rewrite host_add_fresh by exact Hwf.
  by rewrite passive_option_capture.
Qed.

Lemma on_keeps_well_formed ref passive eventName (sendToSelf : Event → Task) w :
  well_formed w →
  well_formed
    (state_of (_Browser_on passiveSupported (HostTarget ref) passive eventName
                 sendToSelf w)).
Proof.
  intros Hwf. rewrite on_host_target by done. unfold well_formed in *. cbn.
  apply Forall_app. split.
  - eapply Forall_impl; [exact Hwf|]. cbn. lia.
  - repeat constructor.
Qed.

Lemma dispatch_added ref type event ls (l : Listener Event Task) spawned0 calls0 n :
  spawned (dispatch ref type event (mkWorld (ls ++ [l]) spawned0 calls0 n))
  = let s := spawned (dispatch ref type event (mkWorld ls spawned0 calls0 n)) in
    if bool_decide (l_target l = ref ∧ l_type l = type)
    then fn_call (l_callback l) event s else s.
Proof. cbn. by rewrite fold_left_app. Qed.

Lemma dispatch_same_listeners ref type event w w' :
  listeners w = listeners w' → spawned w = spawned w' →
  spawned (dispatch ref type event w) = spawned (dispatch ref type event w').
Proof. intros Hl Hs. cbn. by rewrite Hl, Hs. Qed.

(** X17: after [_Browser_on] on a host target, an event of the subscribed
    type delivered to that target hands [sendToSelf event] to the
    scheduler, once and after what the listeners already there hand over;
    an event of another type or on another target hands over nothing
    more. *)
Theorem on_delivers_subscribed_events ref passive eventName
    (sendToSelf : Event → Task) w :
  well_formed w →
  ∃ kill w1,
    _Browser_on passiveSupported (HostTarget ref) passive eventName sendToSelf w
    = Normal kill w1
    ∧ (∀ event,
         spawned (dispatch ref eventName event w1)
         = spawned (dispatch ref eventName event w) ++ [sendToSelf event])
    ∧ (∀ ref' type' event,
         ¬ (ref' = ref ∧ type' = eventName) →
         spawned (dispatch ref' type' event w1)
         = spawned (dispatch ref' type' event w)).
Proof.
  intros Hwf. do 2 eexists. split; [by apply on_host_target|].
  split.
  - intros event. rewrite dispatch_added. cbn.
    rewrite bool_decide_eq_true_2 by done.
    by destruct w.
  - intros ref' type' event Hne. rewrite dispatch_added. cbn.
    rewrite bool_decide_eq_false_2 by (intros [-> ->]; by apply Hne).
    by destruct w.
Qed.

(** X18: cancelling a subscription, at once or after any events were
    delivered, puts the host's listener list back to what it was before
    the subscription; events delivered from then on hand the scheduler
    what the earlier listeners alone hand over. *)
Theorem on_cancel_stops_delivery ref passive eventName
    (sendToSelf : Event → Task) w es :
  well_formed w →
  ∃ kill w1,
    _Browser_on passiveSupported (HostTarget ref) passive eventName sendToSelf w
    = Normal kill w1
    ∧ let w2 := dispatch_all es w1 in
      listeners (state_of (kill w2)) = listeners w
      ∧ ∀ es',
          spawned (dispatch_all es' (state_of (kill w2)))
          = spawned (dispatch_all es' (set_listeners (listeners w) w2)).
Proof.
  intros Hwf. do 2 eexists. split; [by apply on_host_target|].
  intros w2.
  assert (Hl : listeners (state_of
            (removeEventListener (HostTarget ref) eventName
               (mkHandler (next_fn w) (λ event, rawSpawn (sendToSelf event)))
               JsUndefined w2)) = listeners w).
  { cbn. subst w2. rewrite dispatch_all_keeps_listeners. cbn.
    unfold host_remove. cbn.
    exact (host_remove_added ref eventName (mkHandler (next_fn w) _) false _
             (listeners w) Hwf). }
  split; [exact Hl|].
  intros es'. by refine (proj2 (dispatch_all_listeners es' _ _ _ _)).
Qed.

(** X19: two subscriptions with the very same arguments are two listeners:
    both receive each event, and cancelling the first leaves the second
    registered and receiving. *)
Theorem subscriptions_are_independent ref passive eventName
    (sendToSelf : Event → Task) w :
  well_formed w →
  ∃ kill1 w1 kill2 w2,
    _Browser_on passiveSupported (HostTarget ref) passive eventName sendToSelf w
    = Normal kill1 w1
    ∧ _Browser_on passiveSupported (HostTarget ref) passive eventName sendToSelf w1
      = Normal kill2 w2
    ∧ (∀ event,
         spawned (dispatch ref eventName event w2)
         = spawned (dispatch ref eventName event w)
           ++ [sendToSelf event; sendToSelf event])
    ∧ (∀ event,
         spawned (dispatch ref eventName event (state_of (kill1 w2)))
         = spawned (dispatch ref eventName event w) ++ [sendToSelf event])
    ∧ listeners (state_of (kill2 (state_of (kill1 w2)))) = listeners w.
Proof.
  intros Hwf.
  pose proof (on_keeps_well_formed ref passive eventName sendToSelf w Hwf) as Hwf1.
  rewrite on_host_target in Hwf1 by done. cbn in Hwf1.
  do 4 eexists. split; [by apply on_host_target|].
  split; [by apply (on_host_target _ _ _ _ _ Hwf1)|]. cbn [next_fn listeners].
  set (h1 := mkHandler (next_fn w) (λ event, rawSpawn (sendToSelf event))).
  set (h2 := mkHandler (S (next_fn w)) (λ event, rawSpawn (sendToSelf event))).
  set (l1 := mkListener ref eventName h1 false _).
  set (l2 := mkListener ref eventName h2 false _).
  assert (Hkill1 : host_remove ref eventName h1 JsUndefined
                     ((listeners w ++ [l1]) ++ [l2]) = listeners w ++ [l2]).
  { unfold host_remove. rewrite filter_app. f_equal.
    - exact (host_remove_added ref eventName h1 false _ (listeners w) Hwf).
    - rewrite (filter_cons_True _ _ []); [done|].
      apply negb_prop_intro. unfold same_listener.
      rewrite bool_decide_spec. cbn. lia. }
  split; [|split].
  - intros event. rewrite !dispatch_added. cbn.
    rewrite !bool_decide_eq_true_2 by done.
    unfold rawSpawn. rewrite <- app_assoc. by destruct w.
  - intros event.
    rewrite (dispatch_same_listeners ref eventName event _
               (mkWorld (listeners w ++ [l2]) (spawned w) [] 0));
      [|exact Hkill1|reflexivity].
    rewrite dispatch_added. cbn.
    rewrite bool_decide_eq_true_2 by done. by destruct w.
  - transitivity
      (host_remove ref eventName h2 JsUndefined
         (host_remove ref eventName h1 JsUndefined
            ((listeners w ++ [l1]) ++ [l2]))); [reflexivity|].
    rewrite Hkill1.
    apply (host_remove_added ref eventName h2 false _ (listeners w)).
    eapply Forall_impl; [exact Hwf|]. cbn. lia.
Qed.

End SubscriptionFacts.

Lemma on_delivers_subscribed_events_witness :
  Events.well_formed (Events.init (Event := nat) (Task := nat))
  ∧ ∃ kill w1,
      Events._Browser_on true (Events.HostTarget 1) false "keydown"
        (λ e : nat, e * 10) Events.init
      = Js.Normal kill w1
      ∧ Events.spawned (Events.dispatch 1 "keydown" 7 w1) = [70]
      ∧ Events.spawned (Events.dispatch 1 "keyup" 7 w1) = [].
Proof.
  assert (Hwf : Events.well_formed (Events.init (Event := nat) (Task := nat)))
    by constructor.
  split; [exact Hwf|].
  destruct (on_delivers_subscribed_events true 1 false "keydown"
              (λ e : nat, e * 10) Events.init Hwf)
    as (kill & w1 & Hon & Hsame & Hother).
  exists kill, w1. split; [exact Hon|]. split; [exact (Hsame 7)|].
  refine (Hother 1 "keyup" 7 _). intros [_ H]. discriminate H.
Defined.

Lemma on_cancel_stops_delivery_witness :
  Events.well_formed (Events.init (Event := nat) (Task := nat))
  ∧ ∃ kill w1,
      Events._Browser_on true (Events.HostTarget 1) false "keydown"
        (λ e : nat, e * 10) Events.init
      = Js.Normal kill w1
      ∧ Events.spawned
          (Events.dispatch_all [(1, "keydown", 8)]
             (Js.state_of (kill (Events.dispatch_all [(1, "keydown", 7)] w1))))
        = [70].
Proof.
  assert (Hwf : Events.well_formed (Events.init (Event := nat) (Task := nat)))
    by constructor.
  split; [exact Hwf|].
  destruct (on_cancel_stops_delivery true 1 false "keydown"
              (λ e : nat, e * 10) Events.init [(1, "keydown", 7)] Hwf)
    as (kill & w1 & Hon & Hlisteners & Hafter).
  exists kill, w1. split; [exact Hon|].
  rewrite (Hafter [(1, "keydown", 8)]).
  vm_compute in Hon. injection Hon as _ <-. reflexivity.
Defined.

Lemma subscriptions_are_independent_witness :
  Events.well_formed (Events.init (Event := nat) (Task := nat))
  ∧ ∃ kill1 w1 kill2 w2,
      Events._Browser_on true (Events.HostTarget 1) false "keydown"
        (λ e : nat, e * 10) Events.init
      = Js.Normal kill1 w1
      ∧ Events._Browser_on true (Events.HostTarget 1) false "keydown"
          (λ e : nat, e * 10) w1
        = Js.Normal kill2 w2
      ∧ Events.spawned (Events.dispatch 1 "keydown" 7 w2) = [70; 70]
      ∧ Events.spawned (Events.dispatch 1 "keydown" 7 (Js.state_of (kill1 w2)))
        = [70].
Proof.
  assert (Hwf : Events.well_formed (Events.init (Event := nat) (Task := nat)))
    by constructor.
  split; [exact Hwf|].
  destruct (subscriptions_are_independent true 1 false "keydown"
              (λ e : nat, e * 10) Events.init Hwf)
    as (kill1 & w1 & kill2 & w2 & Hon1 & Hon2 & Hboth & Hone & _).
  exists kill1, w1, kill2, w2.
  split; [exact Hon1|]. split; [exact Hon2|].
  split; [exact (Hboth 7)|exact (Hone 7)].
Defined.

(** ** Events decoded one after the other *)

Section EventStreamFacts.
Import Events EventStream.
Context {Event Msg X : Type}.
Implicit Types (decoder : Decoder (Event := Event) (Msg := Msg) (X := X)).

(** X20: over any sequence of events, the messages produced are the
    successful decodes, in order, and the events whose default is
    prevented are those that decode with the flag set, in order; an event
    that fails to decode contributes to neither. *)
Theorem decodeEvents_outcome decoder (events prevented : list Event) :
  decodeEvents decoder events prevented
  = (omap (decoded decoder) events,
     prevented ++ filter (λ event, suppresses decoder event = true) events).
Proof.
  revert prevented.
  induction events as [|event events IH]; intros prevented.
  - cbn. by rewrite app_nil_r.
  - change (omap (decoded decoder) (event :: events))
      with (match decoded decoder event with
            | Some msg => msg :: omap (decoded decoder) events
            | None => omap (decoded decoder) events
            end).
    cbn [decodeEvents].
    unfold _Browser_decodeEvent, runHelp, decoded at 1, preventDefault.
    destruct (decoder event) as [[msg [|]]|x] eqn:Hd; cbn [fst snd];
      rewrite IH; f_equal.
    + rewrite filter_cons_True by (unfold suppresses; by rewrite Hd).
      by rewrite <- app_assoc.
    + by rewrite filter_cons_False by (unfold suppresses; by rewrite Hd).
    + by rewrite filter_cons_False by (unfold suppresses; by rewrite Hd).
Qed.

End EventStreamFacts.
